(** * kairosDB.ts: a typed client for the KairosDB HTTP API

    A shallow embedding of [src/kairosDB.ts] (the copy with the keep-alive
    agent, which is the one whose [read] joins the error messages).

    Modelling choices.
    - A JavaScript [number] that the code uses as a millisecond timestamp, a
      count, a sample size or an HTTP status is an integer and is modelled in
      [Z]; the infinities and fractional values are outside the model.
    - The points that a caller builds and passes to the equality helper or
      to [write] may hold [NaN], and are pairs of [number], an integer or
      [NaN]; the points of a decoded response come out of [JSON.parse],
      which yields no [NaN], and are pairs of [Z].
    - A property that may be [undefined] (never assigned, or missing in the
      decoded JSON) is an [option]; reading a property of [undefined] throws
      the runtime's [TypeError].
    - Requests and their metrics are objects that the client mutates in
      place, so they live in a heap and are passed by reference.  A
      reference that the heap does not hold plays the role of
      [null]/[undefined].
    - The network and the clock are the environment: [fetch] answers a call
      as a function of the exchanges made so far, and every exchange is
      recorded in the state, so that "no request was issued" and "the
      requests issued were these" are statements about the state. *)

From stdpp Require Import base option list gmap strings pretty.
From Stdlib Require Import ZArith Lia.

Local Open Scope Z_scope.

(** ** Data model *)

Abbreviation KairosMultiTags := (gmap string (list string)).
Abbreviation KairosTags := (gmap string string).

(** [obj[key] = value] on a plain object, of which the model holds the own
    properties, which are what [JSON.stringify] sends.  An assignment to the
    key [__proto__] goes to the setter of the prototype and adds no own
    property, unless the object has an own property of that name already
    (as a decoded JSON object may have). *)
Definition setProperty {V} (key : string) (value : V)
    (obj : gmap string V) : gmap string V :=
  if decide (key = "__proto__" ∧ obj !! key = None) then obj
  else <[key := value]> obj.

Module KairosAggregator.
Record t := mk {
  name : string;
  align_sampling : bool;
  sampling_value : string;
  sampling_unit : string;
}.
End KairosAggregator.

Inductive KairosGrouperType := tag.

Module KairosGrouper.
Record t := mk {
  name : KairosGrouperType;
  tags : list string;
}.
End KairosGrouper.

Module KairosRequestMetric.
Record t := mk {
  name : option string;
  tags : option KairosMultiTags;
  group_by : option (list KairosGrouper.t);
  aggregators : option (list KairosAggregator.t);
}.

(** [new KairosRequestMetric(metricName)]: the name is assigned only when
    the argument is truthy, i.e. neither [null] nor the empty string. *)
Definition constructor (metricName : option string) : t :=
  {| name := match metricName with
             | Some s => if decide (s = EmptyString) then None else Some s
             | None => None
             end;
     tags := None; group_by := None; aggregators := None |}.

(** [putTag(key, values)]: [tags] becomes [{}] when it is [null] or
    [undefined], then [this.tags[key] = values]. *)
Definition putTag (key : string) (values : list string) (this : t) : t :=
  {| name := name this;
     tags := Some (setProperty key values (default ∅ (tags this)));
     group_by := group_by this;
     aggregators := aggregators this |}.

Definition set_name (v : option string) (this : t) : t :=
  {| name := v; tags := tags this; group_by := group_by this;
     aggregators := aggregators this |}.

Definition set_tags (v : option KairosMultiTags) (this : t) : t :=
  {| name := name this; tags := v; group_by := group_by this;
     aggregators := aggregators this |}.

Definition set_aggregators (v : list KairosAggregator.t) (this : t) : t :=
  {| name := name this; tags := tags this; group_by := group_by this;
     aggregators := Some v |}.
End KairosRequestMetric.

(** A reference to a heap object. *)
Abbreviation ref := nat.

Module KairosRequest.
Record t := mk {
  cache_time : option Z;
  start_absolute : option Z;
  end_absolute : option Z;
  time_zone : option string;
  metrics : option (list ref);
}.

(** [new KairosRequest()]: the two field initialisers run. *)
Definition constructor : t :=
  {| cache_time := Some 0; start_absolute := Some 0; end_absolute := None;
     time_zone := None; metrics := None |}.

Definition addMetric (metric : ref) (this : t) : t :=
  {| cache_time := cache_time this; start_absolute := start_absolute this;
     end_absolute := end_absolute this; time_zone := time_zone this;
     metrics := Some (default [] (metrics this) ++ [metric]) |}.

Definition set_cache_time (v : Z) (this : t) : t :=
  {| cache_time := Some v; start_absolute := start_absolute this;
     end_absolute := end_absolute this; time_zone := time_zone this;
     metrics := metrics this |}.

Definition set_start_absolute (v : Z) (this : t) : t :=
  {| cache_time := cache_time this; start_absolute := Some v;
     end_absolute := end_absolute this; time_zone := time_zone this;
     metrics := metrics this |}.

Definition set_end_absolute (v : Z) (this : t) : t :=
  {| cache_time := cache_time this; start_absolute := start_absolute this;
     end_absolute := Some v; time_zone := time_zone this;
     metrics := metrics this |}.

Definition set_metrics (v : list ref) (this : t) : t :=
  {| cache_time := cache_time this; start_absolute := start_absolute this;
     end_absolute := end_absolute this; time_zone := time_zone this;
     metrics := Some v |}.
End KairosRequest.

(** A JavaScript number as a caller can write it: [Num z] for a number that
    is not [NaN] (the model holds the integers), and [NaN]. *)
Inductive number := Num (z : Z) | NaN.

#[global] Instance number_eq_dec : EqDecision number.
Proof. solve_decision. Defined.

(** [a === b] on numbers: [NaN] equals nothing, itself included. *)
Definition strictEq (a b : number) : bool :=
  match a, b with
  | Num x, Num y => x =? y
  | _, _ => false
  end.

(** A point: the first component is the date, the second the value. *)
Abbreviation KairosItem := (number * number)%type.

(** A point of a decoded response: [JSON.parse] yields no [NaN]. *)
Abbreviation JsonItem := (Z * Z)%type.

Module KairosResult.
Record t := mk {
  name : option string;
  tags : option KairosMultiTags;
  values : option (list JsonItem);
}.
End KairosResult.

Module KairosQueryResponse.
Record t := mk {
  sample_size : option Z;
  results : option (list KairosResult.t);
}.
End KairosQueryResponse.

Module KairosResponse.
Record t := mk {
  queries : option (list KairosQueryResponse.t);
  errors : option (list string);
}.
End KairosResponse.

Module KairosIncoming.
Record t := mk {
  name : option string;
  tags : option KairosTags;
  datapoints : option (list KairosItem);
}.
End KairosIncoming.

Module TimeIntervalCountingSettings.
Record t := mk {
  interval : Z;
  deadInterval : Z;
}.
End TimeIntervalCountingSettings.

(** ** The equality helper *)

(** The body of the [for] loop of [checkKairosItemsEqual], from index [i] for
    [steps] more iterations.  [None] stands for the [TypeError] of reading a
    component of an element that is out of range. *)
Fixpoint checkKairosItemsEqual_loop (left right : list KairosItem)
    (i steps : nat) : option bool :=
  match steps with
  | O => Some true
  | S steps' =>
      match left !! i, right !! i with
      | Some l, Some r =>
          if negb (strictEq l.1 r.1) then Some false
          else if negb (strictEq l.2 r.2) then Some false
          else checkKairosItemsEqual_loop left right (S i) steps'
      | _, _ => None
      end
  end.

Definition checkKairosItemsEqual (left right : list KairosItem) : option bool :=
  if negb (length left =? length right)%nat then Some false
  else checkKairosItemsEqual_loop left right 0 (length left).

(** ** Effects: thrown values, the heap, the network *)

(** What a call can throw. *)
Inductive Thrown :=
| Error (message : string)      (* [throw new Error(message)] *)
| ThrownString (s : string)     (* [throw] of a plain string *)
| TypeError                     (* a property of [undefined] or [null] was read *)
| FetchError (reason : string)  (* [fetch] rejected: no HTTP response *)
| SyntaxError                   (* [response.json()] on a body that is not JSON *)
| URIError.                     (* [encodeURIComponent] on a lone surrogate *)

Inductive Outcome (A : Type) : Type :=
| Returned (a : A)
| Threw (e : Thrown)
| OutOfFuel.
Arguments Returned {A} a.
Arguments Threw {A} e.
Arguments OutOfFuel {A}.

#[global] Instance Outcome_ret : MRet Outcome := @Returned.
#[global] Instance Outcome_bind : MBind Outcome := λ A B f o,
  match o with
  | Returned a => f a
  | Threw e => Threw e
  | OutOfFuel => OutOfFuel
  end.

(** [o.p]: reading a property of [o] needs [o] to be defined. *)
Definition member {A} (o : option A) : Outcome A :=
  match o with
  | Some a => Returned a
  | None => Threw TypeError
  end.

(** [arr[i]]: [undefined] out of range, a [TypeError] when [arr] itself is
    [undefined]. *)
Definition index {A} (arr : option (list A)) (i : nat) : Outcome (option A) :=
  l ← member arr; mret (l !! i).

(** JavaScript truthiness of a number that may be [undefined]. *)
Definition truthy (n : option Z) : bool :=
  match n with
  | Some z => negb (z =? 0)
  | None => false
  end.

(** [n < z] on a number that may be [undefined]: [undefined < z] is false. *)
Definition lessThan (n : option Z) (z : Z) : bool :=
  match n with
  | Some s => s <? z
  | None => false
  end.

Inductive Method := GET | POST | DELETE.

(** What [JSON.stringify] makes of a request: the metrics are read through
    their references when the request is serialised. *)
Module RequestJson.
Record t := mk {
  cache_time : option Z;
  start_absolute : option Z;
  end_absolute : option Z;
  time_zone : option string;
  metrics : option (list (option KairosRequestMetric.t));
}.
End RequestJson.

Inductive Body :=
| NoBody
| RequestBody (request : option RequestJson.t)
| IncomingBody (items : list KairosIncoming.t).

Record RequestInit := {
  method : Method;
  headers : list (string * string);
  body : Body;
}.

Record Call := {
  call_url : string;
  call_init : RequestInit;
}.

(** The HTTP response, with what [text()] and [json()] give on it; [json] is
    [None] when the body is not JSON. *)
Record Response := {
  status : Z;
  text : string;
  json : option KairosResponse.t;
}.

Inductive Settled :=
| Resolved (response : Response)
| Rejected (reason : string).

Abbreviation Exchange := (Call * Settled)%type.

(** [encodeURIComponent] gives [None] where the builtin throws its
    [URIError], on a string that holds a lone surrogate. *)
Record World := {
  fetch_answer : list Exchange → Call → Settled;
  getTime : Z;
  encodeURIComponent : string → option string;
}.

Record State := {
  metricHeap : list KairosRequestMetric.t;
  requestHeap : list KairosRequest.t;
  exchanges : list Exchange;
}.

Definition M (A : Type) : Type := State → Outcome A * State.

#[global] Instance M_ret : MRet M := λ A a st, (Returned a, st).
#[global] Instance M_bind : MBind M := λ A B f m st,
  match m st with
  | (Returned a, st') => f a st'
  | (Threw e, st') => (Threw e, st')
  | (OutOfFuel, st') => (OutOfFuel, st')
  end.

Definition lift {A} (o : Outcome A) : M A := λ st, (o, st).

(** What a call of [encodeURIComponent] evaluates to. *)
Definition orURIError (encoded : option string) : M string :=
  match encoded with
  | Some s => mret s
  | None => lift (Threw URIError)
  end.
Definition throw {A} (e : Thrown) : M A := lift (Threw e).
Definition outOfFuel {A} : M A := lift OutOfFuel.

Definition newMetric (m : KairosRequestMetric.t) : M ref := λ st,
  (Returned (length (metricHeap st)),
   {| metricHeap := metricHeap st ++ [m];
      requestHeap := requestHeap st;
      exchanges := exchanges st |}).

Definition newRequest (r : KairosRequest.t) : M ref := λ st,
  (Returned (length (requestHeap st)),
   {| metricHeap := metricHeap st;
      requestHeap := requestHeap st ++ [r];
      exchanges := exchanges st |}).

Definition readRequest (r : ref) : M KairosRequest.t := λ st,
  (member (requestHeap st !! r), st).

(** An assignment to a property of the metric object behind [m]. *)
Definition updateMetric (m : ref)
    (f : KairosRequestMetric.t → KairosRequestMetric.t) : M unit := λ st,
  match metricHeap st !! m with
  | Some _ =>
      (Returned (),
       {| metricHeap := alter f m (metricHeap st);
          requestHeap := requestHeap st;
          exchanges := exchanges st |})
  | None => (Threw TypeError, st)
  end.

Definition updateRequest (r : ref)
    (f : KairosRequest.t → KairosRequest.t) : M unit := λ st,
  match requestHeap st !! r with
  | Some _ =>
      (Returned (),
       {| metricHeap := metricHeap st;
          requestHeap := alter f r (requestHeap st);
          exchanges := exchanges st |})
  | None => (Threw TypeError, st)
  end.

Definition snapshot (st : State) (r : ref) : option RequestJson.t :=
  req ← requestHeap st !! r;
  Some {| RequestJson.cache_time := KairosRequest.cache_time req;
          RequestJson.start_absolute := KairosRequest.start_absolute req;
          RequestJson.end_absolute := KairosRequest.end_absolute req;
          RequestJson.time_zone := KairosRequest.time_zone req;
          RequestJson.metrics :=
            (λ ms : list ref, (λ m, metricHeap st !! m) <$> ms)
              <$> KairosRequest.metrics req |}.

(** [JSON.stringify(requestObject)]. *)
Definition stringify (r : ref) : M Body := λ st,
  (Returned (RequestBody (snapshot st r)), st).

(** [await response.json()]. *)
Definition jsonOf (response : Response) : M KairosResponse.t :=
  match json response with
  | Some obj => mret obj
  | None => throw SyntaxError
  end.

Fixpoint forEach {A} (l : list A) (f : A → M unit) : M unit :=
  match l with
  | [] => mret ()
  | a :: l' => f a;; forEach l' f
  end.

Definition newline : string := String (Ascii.ascii_of_nat 10) EmptyString.

(** [errors.join('\n')]. *)
Definition join (sep : string) (l : list string) : string :=
  String.concat sep l.

(** ** The clients *)

Record ReadOnlyKairosDB := { url : string }.

Definition allYears : Z := 999999.

(** The aggregator literal that [readCount] and [readCountLong] attach. *)
Definition countAggregator : KairosAggregator.t :=
  {| KairosAggregator.name := "count";
     KairosAggregator.align_sampling := true;
     KairosAggregator.sampling_value := EmptyString +:+ pretty allYears;
     KairosAggregator.sampling_unit := "years" |}.

(** [output.queries[0].sample_size
      ? output.queries[0].results[0].values[0][1] : 0] *)
Definition countOf (output : KairosResponse.t) : Outcome Z :=
  q ← index (KairosResponse.queries output) 0;
  q ← member q;
  if truthy (KairosQueryResponse.sample_size q) then
    q ← index (KairosResponse.queries output) 0;
    q ← member q;
    r ← index (KairosQueryResponse.results q) 0;
    r ← member r;
    v ← index (KairosResult.values r) 0;
    v ← member v;
    mret v.2
  else mret 0.

Section Client.
Context (world : World) (this : ReadOnlyKairosDB).

(** [fetch(url, init)]: the environment answers, the exchange is recorded. *)
Definition fetch (url : string) (init : RequestInit) : M Response := λ st,
  let call := {| call_url := url; call_init := init |} in
  let answer := fetch_answer world (exchanges st) call in
  let st' := {| metricHeap := metricHeap st;
                requestHeap := requestHeap st;
                exchanges := exchanges st ++ [(call, answer)] |} in
  match answer with
  | Resolved response => (Returned response, st')
  | Rejected reason => (Threw (FetchError reason), st')
  end.

Definition apiUrl : string := url this +:+ "/api/v1".

Definition queryUrl : string := apiUrl +:+ "/datapoints/query".

Definition getPostJsonRequest (requestObject : Body) : RequestInit :=
  {| method := POST;
     headers := [("Content-Type", "application/json")];
     body := requestObject |}.

Definition getMetricTags (metricName : string) : M (option KairosMultiTags) :=
  let request :=
    {| RequestJson.cache_time := Some 0;
       RequestJson.start_absolute := Some 0;
       RequestJson.end_absolute := None;
       RequestJson.time_zone := None;
       RequestJson.metrics :=
         Some [Some {| KairosRequestMetric.name := Some metricName;
                       KairosRequestMetric.tags := Some ∅;
                       KairosRequestMetric.group_by := None;
                       KairosRequestMetric.aggregators := None |}] |} in
  response ← fetch (queryUrl +:+ "/tags")
                   (getPostJsonRequest (RequestBody (Some request)));
  responseObject ← jsonOf response;
  lift (q ← index (KairosResponse.queries responseObject) 0;
        q ← member q;
        r ← index (KairosQueryResponse.results q) 0;
        r ← member r;
        mret (KairosResult.tags r)).

Definition read (requestObject : ref) : M KairosResponse.t :=
  body ← stringify requestObject;
  let request := getPostJsonRequest body in
  let url := apiUrl +:+ "/datapoints/query" in
  response ← fetch url request;
  obj ← jsonOf response;
  match KairosResponse.errors obj with
  | Some errors => throw (ThrownString (join newline errors))
  | None => mret obj
  end.

Definition createSimpleRequest (metricName : string)
    (tags : option KairosMultiTags) : M ref :=
  metric ← newMetric (KairosRequestMetric.constructor None);
  updateMetric metric (KairosRequestMetric.set_name (Some metricName));;
  match tags with
  | Some _ => updateMetric metric (KairosRequestMetric.set_tags tags)
  | None => mret ()
  end;;
  request ← newRequest KairosRequest.constructor;
  updateRequest request (KairosRequest.set_cache_time 0);;
  updateRequest request (KairosRequest.set_start_absolute 1);;
  updateRequest request (KairosRequest.set_metrics [metric]);;
  mret request.

Definition readCount (request : ref) : M Z :=
  r ← readRequest request;
  metrics ← lift (member (KairosRequest.metrics r));
  forEach metrics (λ m,
    updateMetric m (KairosRequestMetric.set_aggregators [countAggregator]));;
  output ← read request;
  lift (countOf output).

(** The [while] loop of [readCountLong]; [fuel] bounds the number of
    iterations. *)
Fixpoint readCountLong_loop (fuel : nat) (request : ref)
    (settings : TimeIntervalCountingSettings.t)
    (currentTime nonZeroTime totalCount : Z) : M Z :=
  if (0 <? currentTime)
     && (Z.abs (currentTime - nonZeroTime)
         <=? TimeIntervalCountingSettings.deadInterval settings)
  then
    match fuel with
    | O => outOfFuel
    | S fuel' =>
        updateRequest request (KairosRequest.set_end_absolute currentTime);;
        updateRequest request
          (KairosRequest.set_start_absolute
             (currentTime - TimeIntervalCountingSettings.interval settings + 1));;
        r ← readRequest request;
        (if lessThan (KairosRequest.start_absolute r) 0
         then updateRequest request (KairosRequest.set_start_absolute 0)
         else mret ());;
        output ← read request;
        currentCount ← lift (countOf output);
        let nonZeroTime :=
          if 0 <? currentCount then currentTime else nonZeroTime in
        readCountLong_loop fuel' request settings
          (currentTime - TimeIntervalCountingSettings.interval settings)
          nonZeroTime (totalCount + currentCount)
    end
  else mret totalCount.

Definition readCountLong (fuel : nat) (metricName : string)
    (tags : option KairosMultiTags)
    (settings : TimeIntervalCountingSettings.t) : M Z :=
  if negb (1 <? TimeIntervalCountingSettings.interval settings) then
    throw (Error "settings.interval must be greater than 1")
  else
    request ← createSimpleRequest metricName tags;
    r ← readRequest request;
    metrics ← lift (member (KairosRequest.metrics r));
    metric ← lift (member (metrics !! 0%nat));
    updateMetric metric
      (KairosRequestMetric.set_aggregators [countAggregator]);;
    let currentTime := getTime world in
    let nonZeroTime := currentTime in
    let totalCount := 0 in
    readCountLong_loop fuel request settings
      currentTime nonZeroTime totalCount.

(** *** [KairosDB extends ReadOnlyKairosDB] *)

Definition deleteMetric (metricName : string) : M Response :=
  encoded ← orURIError (encodeURIComponent world metricName);
  response ← fetch (apiUrl +:+ "/metric/" +:+ encoded)
                   {| method := DELETE; headers := []; body := NoBody |};
  if negb (status response =? 204) then throw (Error (text response))
  else mret response.

Definition write (items : list KairosIncoming.t) : M unit :=
  response ← fetch (apiUrl +:+ "/datapoints")
                   (getPostJsonRequest (IncomingBody items));
  if negb (status response =? 204) then throw (Error (text response))
  else mret ().

Definition delete (request : ref) : M Response :=
  body ← stringify request;
  response ← fetch (apiUrl +:+ "/datapoints/delete")
                   (getPostJsonRequest body);
  if negb (status response =? 204) then throw (Error (text response))
  else mret response.
End Client.

(** ** Derived forms used in the statements *)

(** The window that a call asks for. *)
Definition startOf (call : Call) : option Z :=
  match body (call_init call) with
  | RequestBody (Some request) => RequestJson.start_absolute request
  | _ => None
  end.

Definition endOf (call : Call) : option Z :=
  match body (call_init call) with
  | RequestBody (Some request) => RequestJson.end_absolute request
  | _ => None
  end.

(** [queries[0].results[0]] of a decoded response, when there is one. *)
Definition firstResult (obj : KairosResponse.t) : option KairosResult.t :=
  qs ← KairosResponse.queries obj;
  q ← qs !! 0%nat;
  rs ← KairosQueryResponse.results q;
  rs !! 0%nat.

(** The contract that the specification words for [read]: failure exactly on
    a non-empty [errors] sequence. *)
Definition read_contract (obj : KairosResponse.t)
    (out : Outcome KairosResponse.t) : Prop :=
  match KairosResponse.errors obj with
  | Some (e :: errors) => out = Threw (ThrownString (join newline (e :: errors)))
  | _ => out = Returned obj
  end.

(** The contract that the specification words for a response without a
    first result: an error raised by a check of the client, not the
    runtime's fault on an unguarded access, and not a value. *)
Definition raisesMalformedResponse {A} (out : Outcome A) : Prop :=
  ∃ e, out = Threw e ∧ e ≠ TypeError.

(** [queries[0].results[0].values[0][1]] of a decoded response, when there
    is such a point. *)
Definition firstPointValue (obj : KairosResponse.t) : option Z :=
  r ← firstResult obj;
  vs ← KairosResult.values r;
  v ← vs !! 0%nat;
  Some v.2.

(** The assignment that [readCount] makes to every metric. *)
Definition attachCount : KairosRequestMetric.t → KairosRequestMetric.t :=
  KairosRequestMetric.set_aggregators [countAggregator].

(** The call that [read] makes for the request behind [request], the state
    after the exchange, and what [read] makes of the answer. *)
Definition queryCall (this : ReadOnlyKairosDB) (st : State) (request : ref) : Call :=
  {| call_url := apiUrl this +:+ "/datapoints/query";
     call_init := getPostJsonRequest (RequestBody (snapshot st request)) |}.

Definition recorded (st : State) (call : Call) (answer : Settled) : State :=
  {| metricHeap := metricHeap st;
     requestHeap := requestHeap st;
     exchanges := exchanges st ++ [(call, answer)] |}.

Definition readOutcome (answer : Settled) : Outcome KairosResponse.t :=
  match answer with
  | Resolved response =>
      match json response with
      | Some obj =>
          match KairosResponse.errors obj with
          | Some errors => Threw (ThrownString (join newline errors))
          | None => Returned obj
          end
      | None => Threw SyntaxError
      end
  | Rejected reason => Threw (FetchError reason)
  end.

(** The contract of a mutating call that sends [call] and returns
    [result response]: the one exchange is the call with the answer of the
    environment, the call returns exactly when that answer is an HTTP
    response with status 204, and on a response with another status it
    throws an [Error] whose message is the body text. *)
Definition succeedsExactlyOn204 {A} (world : World) (st : State) (call : Call)
    (result : Response → A) (run : Outcome A * State) : Prop :=
  run.2 = recorded st call (fetch_answer world (exchanges st) call)
  ∧ match fetch_answer world (exchanges st) call with
    | Resolved response =>
        if decide (status response = 204)
        then run.1 = Returned (result response)
        else run.1 = Threw (Error (text response))
    | Rejected reason => run.1 = Threw (FetchError reason)
    end.

(** The calls that [getMetricTags], [deleteMetric], [write] and [delete]
    make. *)
Definition tagsCall (this : ReadOnlyKairosDB) (metricName : string) : Call :=
  {| call_url := queryUrl this +:+ "/tags";
     call_init :=
       getPostJsonRequest
         (RequestBody
            (Some {| RequestJson.cache_time := Some 0;
                     RequestJson.start_absolute := Some 0;
                     RequestJson.end_absolute := None;
                     RequestJson.time_zone := None;
                     RequestJson.metrics :=
                       Some [Some {| KairosRequestMetric.name :=
                                       Some metricName;
                                     KairosRequestMetric.tags := Some ∅;
                                     KairosRequestMetric.group_by := None;
                                     KairosRequestMetric.aggregators :=
                                       None |}] |})) |}.

Definition deleteMetricCall (this : ReadOnlyKairosDB) (encoded : string) : Call :=
  {| call_url := apiUrl this +:+ "/metric/" +:+ encoded;
     call_init := {| method := DELETE; headers := []; body := NoBody |} |}.

Definition writeCall (this : ReadOnlyKairosDB)
    (items : list KairosIncoming.t) : Call :=
  {| call_url := apiUrl this +:+ "/datapoints";
     call_init := getPostJsonRequest (IncomingBody items) |}.

Definition deleteCall (this : ReadOnlyKairosDB) (st : State) (request : ref) : Call :=
  {| call_url := apiUrl this +:+ "/datapoints/delete";
     call_init := getPostJsonRequest (RequestBody (snapshot st request)) |}.

(** What [getMetricTags] makes of the answer. *)
Definition tagsOutcome (answer : Settled) : Outcome (option KairosMultiTags) :=
  match answer with
  | Resolved response =>
      match json response with
      | Some obj =>
          match firstResult obj with
          | Some r => Returned (KairosResult.tags r)
          | None => Threw TypeError
          end
      | None => Threw SyntaxError
      end
  | Rejected reason => Threw (FetchError reason)
  end.

(** No timestamp and no value of the sequence is [NaN]. *)
Definition noNaN (items : list KairosItem) : Prop :=
  Forall (λ item : KairosItem, item.1 ≠ NaN ∧ item.2 ≠ NaN) items.

#[global] Instance noNaN_dec (items : list KairosItem) : Decision (noNaN items).
Proof. unfold noNaN. apply _. Defined.

(** A point of a decoded response as a point of the caller. *)
Definition ofJson (item : JsonItem) : KairosItem := (Num item.1, Num item.2).

(** The request object after the assignments of one iteration of the loop
    of [readCountLong], and the state with that object behind [request]. *)
Definition windowed (settings : TimeIntervalCountingSettings.t)
    (currentTime : Z) (r : KairosRequest.t) : KairosRequest.t :=
  {| KairosRequest.cache_time := KairosRequest.cache_time r;
     KairosRequest.start_absolute :=
       Some (Z.max 0 (currentTime
                      - TimeIntervalCountingSettings.interval settings + 1));
     KairosRequest.end_absolute := Some currentTime;
     KairosRequest.time_zone := KairosRequest.time_zone r;
     KairosRequest.metrics := KairosRequest.metrics r |}.

Definition withRequest (st : State) (request : ref) (r : KairosRequest.t) : State :=
  {| metricHeap := metricHeap st;
     requestHeap := <[request := r]> (requestHeap st);
     exchanges := exchanges st |}.

(** The state in which [readCountLong] enters its loop: one new metric
    object, one new request object that refers to it. *)
Definition prepared (st : State) (metricName : string)
    (tags : option KairosMultiTags) : State :=
  {| metricHeap :=
       metricHeap st
       ++ [{| KairosRequestMetric.name := Some metricName;
              KairosRequestMetric.tags := tags;
              KairosRequestMetric.group_by := None;
              KairosRequestMetric.aggregators := Some [countAggregator] |}];
     requestHeap :=
       requestHeap st
       ++ [{| KairosRequest.cache_time := Some 0;
              KairosRequest.start_absolute := Some 1;
              KairosRequest.end_absolute := None;
              KairosRequest.time_zone := None;
              KairosRequest.metrics := Some [length (metricHeap st)] |}];
     exchanges := exchanges st |}.

(** The count that the loop derives from an answer; 0 stands in where it
    derives none (the loop then throws). *)
Definition windowCount (answer : Settled) : Z :=
  match readOutcome answer ≫= countOf with
  | Returned c => c
  | _ => 0
  end.

Definition sumZ (l : list Z) : Z := foldr Z.add 0 l.

(** A window is well formed when both bounds are set and
    [0 ≤ start_absolute ≤ end_absolute]. *)
Definition wellFormedWindow (call : Call) : Prop :=
  ∃ s e, startOf call = Some s ∧ endOf call = Some e ∧ 0 ≤ s ∧ s ≤ e.

(** A server reports [counts] when it answers every query for a window that
    ends at [t] with a response from which the client derives the count
    [counts t]. *)
Definition reports (world : World) (counts : Z → Z) : Prop :=
  ∀ history call t,
    endOf call = Some t →
    readOutcome (fetch_answer world history call) ≫= countOf
    = Returned (counts t).

(** The backward scan as the specification words it (§4.1, steps 3 to 5),
    over the counts that the windows deliver; [None] when [fuel] iterations
    do not reach the end of the loop. *)
Fixpoint scan (fuel : nat) (counts : Z → Z)
    (settings : TimeIntervalCountingSettings.t)
    (currentTime nonZeroTime totalCount : Z) : option Z :=
  if (0 <? currentTime)
     && (Z.abs (currentTime - nonZeroTime)
         <=? TimeIntervalCountingSettings.deadInterval settings)
  then
    match fuel with
    | O => None
    | S fuel' =>
        let currentCount := counts currentTime in
        scan fuel' counts settings
          (currentTime - TimeIntervalCountingSettings.interval settings)
          (if 0 <? currentCount then currentTime else nonZeroTime)
          (totalCount + currentCount)
    end
  else Some totalCount.

(** *** Fixtures: a client, small heaps and synthetic servers *)

Definition client : ReadOnlyKairosDB := {| url := "http://kairos:8080" |}.

Definition emptyState : State :=
  {| metricHeap := []; requestHeap := []; exchanges := [] |}.

(** A heap with the request [new KairosRequest().addMetric(
    new KairosRequestMetric("m"))] behind reference 0. *)
Definition oneRequest : State :=
  {| metricHeap := [KairosRequestMetric.constructor (Some "m")];
     requestHeap := [KairosRequest.addMetric 0%nat KairosRequest.constructor];
     exchanges := [] |}.

(** A server that gives the same answer to every call. *)
Definition answering (answer : Settled) : World :=
  {| fetch_answer := λ _ _, answer; getTime := 100; encodeURIComponent := Some |}.

Definition ok (obj : KairosResponse.t) : Settled :=
  Resolved {| status := 200; text := EmptyString; json := Some obj |}.

Definition noQueries : KairosResponse.t :=
  {| KairosResponse.queries := Some []; KairosResponse.errors := None |}.

Definition emptyErrors : KairosResponse.t :=
  {| KairosResponse.queries := Some []; KairosResponse.errors := Some [] |}.

(** What a server answers to a count query over a window that starts at
    [start] and holds [count] points. *)
Definition counted (start count : Z) : KairosResponse.t :=
  {| KairosResponse.queries :=
       Some [{| KairosQueryResponse.sample_size := Some count;
                KairosQueryResponse.results :=
                  Some [{| KairosResult.name := Some "m";
                           KairosResult.tags := Some ∅;
                           KairosResult.values :=
                             Some (if count =? 0 then []
                                   else [(start, count)]) |}] |}];
     KairosResponse.errors := None |}.

(** The synthetic server of the specification's test: it answers a query
    for the window that ends at [t] with the count [counts t]. *)
Definition windowServer (counts : Z → Z) (now : Z) : World :=
  {| fetch_answer := λ _ call,
       match endOf call with
       | Some t => ok (counted (default 0 (startOf call)) (counts t))
       | None => Rejected "no window"
       end;
     getTime := now;
     encodeURIComponent := Some |}.

(** Points only in the two most recent windows of length 10 before 100. *)
Definition twoRecentWindows (t : Z) : Z :=
  if t =? 100 then 5 else if t =? 90 then 7 else 0.

Definition notFound : Settled :=
  Resolved {| status := 404; text := "no such metric"; json := None |}.

(** ** The rest of the module *)

(** The methods of [KairosIncoming]; each assigns to a field of [this] and
    returns [this]. *)
Module KairosIncomingMethods.
(** [new KairosIncoming(metricName)]: the name is assigned only when the
    argument is truthy. *)
Definition constructor (metricName : option string) : KairosIncoming.t :=
  {| KairosIncoming.name :=
       match metricName with
       | Some s => if decide (s = EmptyString) then None else Some s
       | None => None
       end;
     KairosIncoming.tags := None;
     KairosIncoming.datapoints := None |}.

(** [putTag(key, value)], as [KairosRequestMetric.putTag]; the setter of
    the prototype ignores a string. *)
Definition putTag (key value : string) (this : KairosIncoming.t) : KairosIncoming.t :=
  {| KairosIncoming.name := KairosIncoming.name this;
     KairosIncoming.tags :=
       Some (setProperty key value (default ∅ (KairosIncoming.tags this)));
     KairosIncoming.datapoints := KairosIncoming.datapoints this |}.

Definition setValues (items : list KairosItem) (this : KairosIncoming.t) : KairosIncoming.t :=
  {| KairosIncoming.name := KairosIncoming.name this;
     KairosIncoming.tags := KairosIncoming.tags this;
     KairosIncoming.datapoints := Some items |}.
End KairosIncomingMethods.

(** The decoded body of the metric-name listing: [{results: [...]}]. *)
Record MetricNames := { results : option (list string) }.

(** [getMetricNames(prefix)].  The [Response] record holds the decoded body
    only in the shape of a [KairosResponse]; what [response.json()] gives on
    the body of the listing endpoint is the parameter [jsonNames] ([None]
    when the body is not JSON).  A call without [method] is a GET. *)
Definition getMetricNames (world : World) (this : ReadOnlyKairosDB)
    (jsonNames : Response → option MetricNames)
    (prefix : option string) : M (option (list string)) :=
  prefixUrlPart ←
    match prefix with
    | Some p =>
        encoded ← orURIError (encodeURIComponent world p);
        mret ("?prefix=" +:+ encoded)
    | None => mret EmptyString
    end;
  response ← fetch world (apiUrl this +:+ "/metricnames" +:+ prefixUrlPart)
                   {| method := GET; headers := []; body := NoBody |};
  responseObject ← match jsonNames response with
                   | Some obj => mret obj
                   | None => throw SyntaxError
                   end;
  mret (results responseObject).

(** *** Further forms used in the statements *)

(** The endpoints of the read-only client: the two query endpoints, by
    POST, and the listing of the metric names, by GET without a body. *)
Definition queryEndpoint (this : ReadOnlyKairosDB) (call : Call) : Prop :=
  (method (call_init call) = POST
   ∧ (call_url call = apiUrl this +:+ "/datapoints/query"
      ∨ call_url call = (apiUrl this +:+ "/datapoints/query") +:+ "/tags"))
  ∨ (method (call_init call) = GET
     ∧ body (call_init call) = NoBody
     ∧ ∃ part, call_url call = apiUrl this +:+ "/metricnames" +:+ part).

(** The endpoints that [write], [delete] and [deleteMetric] call. *)
Definition mutatingEndpoint (this : ReadOnlyKairosDB) (call : Call) : Prop :=
  call_url call = apiUrl this +:+ "/datapoints"
  ∨ call_url call = apiUrl this +:+ "/datapoints/delete"
  ∨ ∃ name, call_url call = apiUrl this +:+ "/metric/" +:+ name.

(** The heap of a state, without the exchanges. *)
Definition sameHeap (st st' : State) : Prop :=
  metricHeap st' = metricHeap st ∧ requestHeap st' = requestHeap st.

(** A call made exactly one exchange, with the answer of the environment. *)
Definition oneExchange (world : World) (st st' : State) : Prop :=
  ∃ call,
    exchanges st'
    = exchanges st ++ [(call, fetch_answer world (exchanges st) call)].

(** The count that the loop of [readCountLong] derives from an answer. *)
Definition derived (answer : Settled) : Outcome Z :=
  readOutcome answer ≫= countOf.

(** The request holds metrics, and all of them are objects. *)
Definition metricsAreObjects (st : State) (request : ref) : Prop :=
  ∃ r ms,
    requestHeap st !! request = Some r
    ∧ KairosRequest.metrics r = Some ms
    ∧ ∀ m, m ∈ ms → is_Some (metricHeap st !! m).

(** A server without data: every window reports the count 0. *)
Definition noData : Z → Z := λ _, 0.

(** A server that refuses every connection. *)
Definition unreachable : World :=
  {| fetch_answer := λ _ _, Rejected "ECONNREFUSED";
     getTime := 100;
     encodeURIComponent := Some |}.

(** A heap with a request without metrics, [new KairosRequest()], behind
    reference 0. *)
Definition bareRequest : State :=
  {| metricHeap := [];
     requestHeap := [KairosRequest.constructor];
     exchanges := [] |}.

(** Between two states only query endpoints were called. *)
Definition onlyQueries (this : ReadOnlyKairosDB) (st st' : State) : Prop :=
  ∃ new : list Exchange,
    exchanges st' = exchanges st ++ new
    ∧ ∀ ex, ex ∈ new →
        queryEndpoint this ex.1 ∧ ¬ mutatingEndpoint this ex.1.

(** Between two states exactly one call was made, to a mutating endpoint. *)
Definition oneMutation (this : ReadOnlyKairosDB) (st st' : State) : Prop :=
  ∃ call answer,
    exchanges st' = exchanges st ++ [(call, answer)]
    ∧ mutatingEndpoint this call.

(** The sum of the counts of all the windows that end above 0, going back
    from [currentTime] in steps of [interval]: what an exhaustive scan
    would return.  [fuel] bounds the number of windows. *)
Fixpoint sumWindows (fuel : nat) (counts : Z → Z) (interval currentTime : Z) : Z :=
  match fuel with
  | O => 0
  | S fuel' =>
      if 0 <? currentTime
      then counts currentTime
           + sumWindows fuel' counts interval (currentTime - interval)
      else 0
  end.

(** The settings with another dead interval. *)
Definition withDeadInterval (deadInterval : Z)
    (settings : TimeIntervalCountingSettings.t) : TimeIntervalCountingSettings.t :=
  {| TimeIntervalCountingSettings.interval :=
       TimeIntervalCountingSettings.interval settings;
     TimeIntervalCountingSettings.deadInterval := deadInterval |}.

(** ** Theorems *)

Lemma strictEq_spec (a b : number) : strictEq a b = true ↔ a = b ∧ a ≠ NaN.
Proof.
  destruct a as [x|], b as [y|]; cbn; try (split; [done | by intros [? ?]]).
  rewrite Z.eqb_eq. split; [by intros -> | by intros [[= ->] _]].
Qed.

Lemma checkKairosItemsEqual_loop_spec (left right : list KairosItem) :
  ∀ (steps i : nat),
    (i + steps = length left)%nat →
    length left = length right →
    checkKairosItemsEqual_loop left right i steps
    = Some (bool_decide (drop i left = drop i right ∧ noNaN (drop i left))).
Proof.
  induction steps as [|steps IH]; intros i Hi Hlen;
    cbn [checkKairosItemsEqual_loop].
  - rewrite !drop_ge by lia. rewrite bool_decide_eq_true_2; [done|].
    split; [done | constructor].
  - destruct (lookup_lt_is_Some_2 left i) as [[lt lv] Hl]; [lia|].
    destruct (lookup_lt_is_Some_2 right i) as [[rt rv] Hr]; [lia|].
    rewrite Hl, Hr. cbn [fst snd].
    rewrite (drop_S _ _ _ Hl), (drop_S _ _ _ Hr).
    destruct (strictEq lt rt) eqn:Ht; cbn [negb].
    + destruct (strictEq lv rv) eqn:Hv; cbn [negb].
      * apply strictEq_spec in Ht as [-> Ht], Hv as [-> Hv].
        rewrite IH by lia. f_equal. apply bool_decide_ext. unfold noNaN.
        rewrite Forall_cons. cbn [fst snd]. split.
        -- intros [-> ?]. done.
        -- intros [[= ->] [_ ?]]. done.
      * f_equal. symmetry. apply bool_decide_eq_false_2.
        unfold noNaN. rewrite Forall_cons. cbn [fst snd].
        intros [[= -> ->] [[_ Hnan] _]].
        assert (strictEq rv rv = true) by by apply strictEq_spec.
        congruence.
    + f_equal. symmetry. apply bool_decide_eq_false_2.
      unfold noNaN. rewrite Forall_cons. cbn [fst snd].
      intros [[= -> ->] [[Hnan _] _]].
      assert (strictEq rt rt = true) by by apply strictEq_spec.
      congruence.
Qed.

Lemma checkKairosItemsEqual_eq (left right : list KairosItem) :
  checkKairosItemsEqual left right
  = Some (bool_decide (left = right ∧ noNaN left)).
Proof.
  unfold checkKairosItemsEqual.
  destruct (Nat.eqb_spec (length left) (length right)) as [Hlen|Hlen]; simpl.
  - by rewrite checkKairosItemsEqual_loop_spec.
  - f_equal. symmetry. apply bool_decide_eq_false_2. intros [-> _]. done.
Qed.

Lemma ofJson_inj : Inj (=) (=) ofJson.
Proof. intros [t v] [t' v'] [= -> ->]. done. Qed.

Lemma noNaN_ofJson (l : list JsonItem) : noNaN (ofJson <$> l).
Proof. apply Forall_fmap, Forall_true. by intros [t v]. Qed.

(** *** The equality helper *)

(** C3, as the code has it. [checkKairosItemsEqual] never faults.  It is
    false when the lengths differ or when some position holds timestamps or
    values that differ under [!==], for which [NaN] differs from every
    number, itself included, and it is true otherwise.  So it is true
    exactly on two identical sequences that hold no [NaN]: a sequence
    without [NaN] equals itself, the empty sequences are equal, a sequence
    that holds [NaN] is unequal even to itself, and a reordering that is not
    the same sequence is unequal.  On sequences decoded from JSON it decides
    equality.  It is a function of its two arguments only. *)
Theorem checkKairosItemsEqual_decides (left right : list KairosItem) :
  checkKairosItemsEqual left right
  = Some (bool_decide (left = right ∧ noNaN left))
  ∧ (length left ≠ length right →
     checkKairosItemsEqual left right = Some false)
  ∧ ((∃ i l r, left !! i = Some l ∧ right !! i = Some r
               ∧ (strictEq l.1 r.1 = false ∨ strictEq l.2 r.2 = false)) →
     checkKairosItemsEqual left right = Some false)
  ∧ (length left = length right →
     (∀ i l r, left !! i = Some l → right !! i = Some r →
               strictEq l.1 r.1 = true ∧ strictEq l.2 r.2 = true) →
     checkKairosItemsEqual left right = Some true)
  ∧ (noNaN left → checkKairosItemsEqual left left = Some true)
  ∧ (¬ noNaN left → checkKairosItemsEqual left left = Some false)
  ∧ checkKairosItemsEqual [] [] = Some true
  ∧ (left ≡ₚ right → left ≠ right →
     checkKairosItemsEqual left right = Some false)
  ∧ (∀ l r : list JsonItem,
       checkKairosItemsEqual (ofJson <$> l) (ofJson <$> r)
       = Some (bool_decide (l = r))).
Proof.
  split; [apply checkKairosItemsEqual_eq|].
  repeat split_and.
  - intros Hlen. rewrite checkKairosItemsEqual_eq. f_equal.
    apply bool_decide_eq_false_2. intros [-> _]. done.
  - intros (i & l & r & Hl & Hr & Hne).
    rewrite checkKairosItemsEqual_eq. f_equal.
    apply bool_decide_eq_false_2. intros [-> Hnan].
    rewrite Hl in Hr. injection Hr as ->.
    unfold noNaN in Hnan. rewrite Forall_lookup in Hnan.
    destruct (Hnan i r Hl) as [H1 H2].
    assert (strictEq r.1 r.1 = true) by by apply strictEq_spec.
    assert (strictEq r.2 r.2 = true) by by apply strictEq_spec.
    destruct Hne; congruence.
  - intros Hlen Hall. rewrite checkKairosItemsEqual_eq. f_equal.
    apply bool_decide_eq_true_2. split.
    + apply list_eq_same_length with (length left); [done | done |].
      intros i [lt lv] [rt rv] _ Hl Hr.
      destruct (Hall i _ _ Hl Hr) as [[Ht _]%strictEq_spec [Hv _]%strictEq_spec].
      cbn in *. congruence.
    + apply Forall_lookup. intros i [lt lv] Hl.
      destruct (lookup_lt_is_Some_2 right i) as [r Hr].
      { rewrite <- Hlen. by eapply lookup_lt_Some. }
      destruct (Hall i _ _ Hl Hr) as [[_ Ht]%strictEq_spec [_ Hv]%strictEq_spec].
      done.
  - intros Hnan. rewrite checkKairosItemsEqual_eq. f_equal.
    by apply bool_decide_eq_true_2.
  - intros Hnan. rewrite checkKairosItemsEqual_eq. f_equal.
    apply bool_decide_eq_false_2. by intros [_ ?].
  - reflexivity.
  - intros _ Hne. rewrite checkKairosItemsEqual_eq. f_equal.
    apply bool_decide_eq_false_2. by intros [? _].
  - intros l r. rewrite checkKairosItemsEqual_eq. f_equal.
    apply bool_decide_ext. split.
    + intros [Heq _]. revert Heq. apply list_fmap_eq_inj, ofJson_inj.
    + intros ->. split; [done | apply noNaN_ofJson].
Qed.

Lemma checkKairosItemsEqual_reordered :
  checkKairosItemsEqual [(Num 1000, Num 5); (Num 2000, Num 6)]
                        [(Num 2000, Num 6); (Num 1000, Num 5)]
  = Some false.
Proof.
  apply (checkKairosItemsEqual_decides
           [(Num 1000, Num 5); (Num 2000, Num 6)]
           [(Num 2000, Num 6); (Num 1000, Num 5)]).
  - apply perm_swap.
  - discriminate.
Defined.

(** C3 fails on [NaN]: the sequence [[[1000, NaN]]] is identical to itself
    and the helper returns false on it, because [NaN !== NaN]. *)
Lemma checkKairosItemsEqual_NaN_unequal_to_itself :
  checkKairosItemsEqual [(Num 1000, NaN)] [(Num 1000, NaN)] = Some false
  ∧ checkKairosItemsEqual [(Num 1000, NaN)] [(Num 1000, NaN)] ≠ Some true.
Proof. split; [reflexivity | discriminate]. Qed.

(** *** Running the monad *)

Lemma bind_run {A B} (m : M A) (f : A → M B) (st : State) :
  (m ≫= f) st
  = match m st with
    | (Returned a, st') => f a st'
    | (Threw e, st') => (Threw e, st')
    | (OutOfFuel, st') => (OutOfFuel, st')
    end.
Proof. reflexivity. Qed.

Lemma fetch_run world (url : string) (init : RequestInit) (st : State) :
  let call := {| call_url := url; call_init := init |} in
  let answer := fetch_answer world (exchanges st) call in
  let st' := {| metricHeap := metricHeap st;
                requestHeap := requestHeap st;
                exchanges := exchanges st ++ [(call, answer)] |} in
  fetch world url init st
  = (match answer with
     | Resolved response => Returned response
     | Rejected reason => Threw (FetchError reason)
     end, st').
Proof. unfold fetch. simpl. by destruct (fetch_answer _ _ _). Qed.

(** *** The interval guard *)

Lemma readCountLong_guard_run world this (fuel : nat) (metricName : string)
    (tags : option KairosMultiTags) settings (st : State) :
  TimeIntervalCountingSettings.interval settings ≤ 1 →
  readCountLong world this fuel metricName tags settings st
  = (Threw (Error "settings.interval must be greater than 1"), st).
Proof.
  intros Hint. unfold readCountLong.
  destruct (Z.ltb_spec 1 (TimeIntervalCountingSettings.interval settings));
    [lia|]. done.
Qed.

(** C4. With [settings.interval] not greater than 1, [readCountLong] throws
    the [Error] of its guard and leaves the state as it was: nothing was
    allocated and no exchange with the server took place. *)
Theorem readCountLong_rejects_small_interval world this fuel metricName tags
    settings st :
  TimeIntervalCountingSettings.interval settings ≤ 1 →
  readCountLong world this fuel metricName tags settings st
  = (Threw (Error "settings.interval must be greater than 1"), st)
  ∧ exchanges (readCountLong world this fuel metricName tags settings st).2
    = exchanges st.
Proof. intros Hint. by rewrite readCountLong_guard_run. Qed.

Lemma readCountLong_interval_one :
  readCountLong (answering notFound) client 5 "m" None
    {| TimeIntervalCountingSettings.interval := 1;
       TimeIntervalCountingSettings.deadInterval := 10 |} emptyState
  = (Threw (Error "settings.interval must be greater than 1"), emptyState).
Proof.
  apply (readCountLong_rejects_small_interval (answering notFound) client 5
           "m" None
           {| TimeIntervalCountingSettings.interval := 1;
              TimeIntervalCountingSettings.deadInterval := 10 |} emptyState).
  simpl. lia.
Defined.

(** *** The mutating calls *)

Lemma fetch_then_status_check {A} world (url : string) (init : RequestInit)
    (k : Response → A) (st : State) :
  succeedsExactlyOn204 world st {| call_url := url; call_init := init |} k
    ((response ← fetch world url init;
      if negb (status response =? 204) then throw (Error (text response))
      else mret (k response)) st).
Proof.
  rewrite bind_run, fetch_run. cbv zeta. unfold succeedsExactlyOn204.
  set (call := {| call_url := url; call_init := init |}).
  destruct (fetch_answer world (exchanges st) call) as [response|reason].
  - destruct (Z.eqb_spec (status response) 204) as [Hs|Hs]; simpl;
      (split; [done|]); by case_decide.
  - by split.
Qed.

(** C9. Each of [deleteMetric], [write] and [delete] makes one exchange, the
    call to its endpoint with the answer of the server; on an HTTP response
    it returns exactly when the status is 204 and otherwise throws an
    [Error] whose message is the response's body text; without a response
    (a rejected [fetch], or a metric name that [encodeURIComponent] refuses,
    in which case there is no exchange) it does not return. *)
Theorem mutating_calls_succeed_exactly_on_204 world this (st : State) :
  (∀ metricName,
     match encodeURIComponent world metricName with
     | Some encoded =>
         succeedsExactlyOn204 world st (deleteMetricCall this encoded) id
           (deleteMetric world this metricName st)
     | None => deleteMetric world this metricName st = (Threw URIError, st)
     end)
  ∧ (∀ items,
       succeedsExactlyOn204 world st (writeCall this items) (λ _, ())
         (write world this items st))
  ∧ (∀ request,
       succeedsExactlyOn204 world st (deleteCall this st request) id
         (delete world this request st)).
Proof.
  split; [|split].
  - intros metricName. unfold deleteMetric. rewrite bind_run.
    destruct (encodeURIComponent world metricName) as [encoded|]; [|done].
    apply (fetch_then_status_check world _ _ id).
  - intros items. apply (fetch_then_status_check world _ _ (λ _, ())).
  - intros request. unfold delete, stringify. rewrite bind_run.
    apply (fetch_then_status_check world _ _ id).
Qed.

Lemma deleteMetric_not_found :
  (deleteMetric (answering notFound) client "m" emptyState).1
  = Threw (Error "no such metric").
Proof. reflexivity. Qed.

(** *** [read] *)

Lemma read_run world this (request : ref) (st : State) :
  let call := queryCall this st request in
  let answer := fetch_answer world (exchanges st) call in
  read world this request st = (readOutcome answer, recorded st call answer).
Proof.
  unfold read, stringify. rewrite bind_run. cbv beta iota zeta.
  rewrite bind_run, fetch_run. cbv zeta. fold (queryCall this st request).
  unfold readOutcome, recorded, jsonOf.
  destruct (fetch_answer world (exchanges st) _) as [response|reason];
    [|done].
  rewrite bind_run. destruct (json response) as [obj|]; [|done].
  cbn. by destruct (KairosResponse.errors obj).
Qed.

(** C7, as the code has it. [read] makes one exchange, the POST of the
    request to the query endpoint with the answer of the server; on a
    decoded response it throws the joined messages whenever the response
    has an [errors] field, however many messages that holds, and returns
    the decoded response unchanged when the field is absent. *)
Theorem read_throws_on_errors_field world this (request : ref) (st : State) :
  let call := queryCall this st request in
  let answer := fetch_answer world (exchanges st) call in
  (read world this request st).2 = recorded st call answer
  ∧ ∀ response obj,
      answer = Resolved response → json response = Some obj →
      (read world this request st).1
      = match KairosResponse.errors obj with
        | Some errors => Threw (ThrownString (join newline errors))
        | None => Returned obj
        end.
Proof.
  cbv zeta. rewrite read_run. cbv zeta. split; [done|].
  intros response obj -> Hjson. simpl. by rewrite Hjson.
Qed.

(** C7 fails on an empty [errors] sequence: the specification's contract
    asks for the response back, [read] throws the empty string. *)
Lemma read_throws_on_empty_errors :
  (read (answering (ok emptyErrors)) client 0%nat oneRequest).1
  = Threw (ThrownString EmptyString)
  ∧ ¬ read_contract emptyErrors
        (read (answering (ok emptyErrors)) client 0%nat oneRequest).1.
Proof. split; [reflexivity|]. unfold read_contract. simpl. discriminate. Qed.

(** *** [getMetricTags] *)

(** C8, as the code has it. [getMetricTags] makes one exchange, the POST of
    its request to the tag-query endpoint with the answer of the server,
    and reads [queries[0].results[0].tags] of the decoded response without
    a check: when there is no first query or no first result it fails with
    the runtime's [TypeError], and otherwise it returns the [tags] of the
    first result. *)
Theorem getMetricTags_unguarded world this (metricName : string) (st : State) :
  let call := tagsCall this metricName in
  let answer := fetch_answer world (exchanges st) call in
  getMetricTags world this metricName st
  = (tagsOutcome answer, recorded st call answer)
  ∧ ∀ response obj,
      answer = Resolved response → json response = Some obj →
      (getMetricTags world this metricName st).1
      = match firstResult obj with
        | Some r => Returned (KairosResult.tags r)
        | None => Threw TypeError
        end.
Proof.
  cbv zeta.
  assert (Hrun : getMetricTags world this metricName st
                 = (tagsOutcome
                      (fetch_answer world (exchanges st)
                         (tagsCall this metricName)),
                    recorded st (tagsCall this metricName)
                      (fetch_answer world (exchanges st)
                         (tagsCall this metricName)))).
  { unfold getMetricTags. rewrite bind_run, fetch_run. cbv zeta.
    fold (tagsCall this metricName).
    destruct (fetch_answer world (exchanges st) (tagsCall this metricName))
      as [response|reason]; [|done].
    rewrite bind_run. unfold jsonOf, tagsOutcome.
    destruct (json response) as [obj|]; [|done]. cbn.
    unfold firstResult, index, member.
    destruct (KairosResponse.queries obj) as [[|q qs]|]; cbn; try done.
    by destruct (KairosQueryResponse.results q) as [[|r rs]|]. }
  split; [exact Hrun|]. intros response obj Hans Hjson.
  rewrite Hrun, Hans. cbn. by rewrite Hjson.
Qed.

(** C8 fails on [{queries: []}]: what is thrown is the [TypeError] of the
    unguarded access. *)
Lemma getMetricTags_no_queries_type_error :
  (getMetricTags (answering (ok noQueries)) client "m" emptyState).1
  = Threw TypeError
  ∧ ¬ raisesMalformedResponse
        (getMetricTags (answering (ok noQueries)) client "m" emptyState).1.
Proof.
  assert (Hrun : (getMetricTags (answering (ok noQueries)) client "m"
                    emptyState).1 = Threw TypeError) by reflexivity.
  split; [exact Hrun|]. intros (e & He & Hne).
  rewrite Hrun in He. by injection He as <-.
Qed.

(** *** [readCount] *)

Lemma updateMetric_run (m : ref) f (st : State) :
  updateMetric m f st
  = if decide (m < length (metricHeap st))%nat
    then (Returned (),
          {| metricHeap := alter f m (metricHeap st);
             requestHeap := requestHeap st;
             exchanges := exchanges st |})
    else (Threw TypeError, st).
Proof.
  unfold updateMetric. case_decide as Hm.
  - by destruct (lookup_lt_is_Some_2 _ _ Hm) as [x ->].
  - by rewrite lookup_ge_None_2 by lia.
Qed.

(** [forEach] over the metrics touches nothing but the metric objects, and
    allocates none. *)
Lemma forEach_updateMetric_frame f (ms : list ref) :
  ∀ st : State,
    let run := forEach ms (λ m, updateMetric m f) st in
    requestHeap run.2 = requestHeap st
    ∧ exchanges run.2 = exchanges st
    ∧ length (metricHeap run.2) = length (metricHeap st)
    ∧ (run.1 = Returned () ∨ run.1 = Threw TypeError).
Proof.
  induction ms as [|m ms IH]; intros st; cbn [forEach].
  - cbn. auto.
  - cbv zeta. rewrite bind_run, updateMetric_run. case_decide as Hm.
    + edestruct IH as (Hr & He & Hl & Ho).
      rewrite Hr, He, Hl. cbn. by rewrite length_alter.
    + cbn. auto.
Qed.

(** On valid references it returns, and every metric named in the list has
    been assigned to, the others not. *)
Lemma forEach_updateMetric_valid f (ms : list ref) :
  (∀ x, f (f x) = f x) →
  ∀ st : State,
    (∀ m, m ∈ ms → m < length (metricHeap st))%nat →
    let run := forEach ms (λ m, updateMetric m f) st in
    run.1 = Returned ()
    ∧ ∀ m, metricHeap run.2 !! m
           = if decide (m ∈ ms) then f <$> metricHeap st !! m
             else metricHeap st !! m.
Proof.
  intros Hidem. induction ms as [|m ms IH]; intros st Hvalid; cbn [forEach].
  - split; [done|]. intros m. case_decide as Hin; [|done].
    by apply elem_of_nil in Hin.
  - cbv zeta. rewrite bind_run, updateMetric_run.
    rewrite decide_True by (apply Hvalid; left).
    edestruct IH as (Ho & Hl).
    2: { split; [exact Ho|]. intros m'. rewrite Hl. cbn [metricHeap].
         destruct (decide (m' = m)) as [->|Hne].
         - rewrite list_lookup_alter_eq.
           rewrite (decide_True (P := m ∈ m :: ms)) by left.
           case_decide; [|done].
           destruct (metricHeap st !! m); cbn; [|done]. by rewrite Hidem.
         - rewrite list_lookup_alter_ne by done.
           destruct (decide (m' ∈ ms)) as [Hin|Hin].
           + by rewrite decide_True by (by right).
           + rewrite decide_False; [done|].
             intros [?|?]%elem_of_cons; done. }
    cbn [metricHeap]. intros m' Hin. rewrite length_alter.
    apply Hvalid. by right.
Qed.

Lemma readCount_run world this (request : ref) (st : State) :
  readCount world this request st
  = match requestHeap st !! request with
    | None => (Threw TypeError, st)
    | Some r =>
        match KairosRequest.metrics r with
        | None => (Threw TypeError, st)
        | Some ms =>
            match forEach ms (λ m, updateMetric m attachCount) st with
            | (Returned _, st1) =>
                (readOutcome
                   (fetch_answer world (exchanges st1)
                      (queryCall this st1 request)) ≫= countOf,
                 recorded st1 (queryCall this st1 request)
                   (fetch_answer world (exchanges st1)
                      (queryCall this st1 request)))
            | (Threw e, st1) => (Threw e, st1)
            | (OutOfFuel, st1) => (OutOfFuel, st1)
            end
        end
    end.
Proof.
  unfold readCount, readRequest. rewrite bind_run.
  destruct (requestHeap st !! request) as [r|]; [|done]. cbn [member].
  rewrite bind_run. unfold lift at 1.
  destruct (KairosRequest.metrics r) as [ms|]; [|done]. cbn [member].
  rewrite bind_run. fold attachCount.
  destruct (forEach ms _ st) as [[[]|e|] st1]; [|done|done].
  rewrite bind_run, read_run. cbv zeta.
  by destruct (readOutcome _).
Qed.

Lemma forEach_updateMetric_invalid f (ms : list ref) :
  ∀ st : State,
    (∃ m, m ∈ ms ∧ metricHeap st !! m = None) →
    (forEach ms (λ m, updateMetric m f) st).1 = Threw TypeError.
Proof.
  induction ms as [|m ms IH]; intros st (m' & Hin & Hnone).
  - by apply elem_of_nil in Hin.
  - cbn [forEach]. rewrite bind_run, updateMetric_run.
    case_decide as Hm; [|done].
    apply elem_of_cons in Hin as [->|Hin].
    { apply lookup_ge_None_1 in Hnone. lia. }
    specialize (IH {| metricHeap := alter f m (metricHeap st);
                      requestHeap := requestHeap st;
                      exchanges := exchanges st |}).
    destruct (forEach ms _ _) as [[[]|e|] st1]; cbn [fst] in *;
      (apply IH; exists m'; split; [done|]; cbn [metricHeap];
       apply lookup_ge_None_2; rewrite length_alter;
       by apply lookup_ge_None_1).
Qed.

(** The heap that [readCount] leaves on a request whose metrics are all
    objects. *)
Lemma readCount_heap world this (request : ref) (st : State)
    (r : KairosRequest.t) (ms : list ref) :
  requestHeap st !! request = Some r →
  KairosRequest.metrics r = Some ms →
  (∀ m, m ∈ ms → is_Some (metricHeap st !! m)) →
  let st' := (readCount world this request st).2 in
  requestHeap st' = requestHeap st
  ∧ (∀ m, metricHeap st' !! m
          = if decide (m ∈ ms) then attachCount <$> metricHeap st !! m
            else metricHeap st !! m)
  ∧ exchanges st'
    = exchanges st
      ++ [(queryCall this st' request,
           fetch_answer world (exchanges st) (queryCall this st' request))]
  ∧ (readCount world this request st).1
    = derived (fetch_answer world (exchanges st) (queryCall this st' request)).
Proof.
  intros Hr Hms Hvalid. cbv zeta. rewrite readCount_run, Hr, Hms.
  pose proof (forEach_updateMetric_frame attachCount ms st)
    as (Hreq & Hex & Hlen & _).
  destruct (forEach_updateMetric_valid attachCount ms (λ _, eq_refl) st)
    as (Hout & Hlook).
  { intros m Hm. by apply lookup_lt_is_Some, Hvalid. }
  destruct (forEach ms _ st) as [out st1]. cbn [fst snd] in *. subst out.
  cbn [snd fst recorded requestHeap metricHeap exchanges].
  rewrite Hex. repeat split_and; done.
Qed.

(** C5. On a request whose metrics are all objects, [readCount] makes one
    exchange, the POST of the caller's request with the answer of the
    server; when that answer is an HTTP response whose decoded body has no
    [errors] field and a first query, it returns 0 if that query's
    [sample_size] is falsy (0 or missing), and otherwise the value of
    [queries[0].results[0].values[0][1]], the value of the first point (the
    [TypeError] of the runtime if the response holds no such point).  On
    any other argument there is no exchange and so no decoded response. *)
Theorem readCount_result world this (request : ref) (st : State) :
  (metricsAreObjects st request →
   let call := queryCall this (readCount world this request st).2 request in
   let answer := fetch_answer world (exchanges st) call in
   exchanges (readCount world this request st).2
   = exchanges st ++ [(call, answer)]
   ∧ ∀ response output q qs,
       answer = Resolved response →
       json response = Some output →
       KairosResponse.errors output = None →
       KairosResponse.queries output = Some (q :: qs) →
       (readCount world this request st).1
       = if truthy (KairosQueryResponse.sample_size q) then
           match firstPointValue output with
           | Some v => Returned v
           | None => Threw TypeError
           end
         else Returned 0)
  ∧ (¬ metricsAreObjects st request →
     exchanges (readCount world this request st).2 = exchanges st
     ∧ (readCount world this request st).1 = Threw TypeError).
Proof.
  split.
  - intros (r & ms & Hr & Hms & Hvalid). cbv zeta.
    destruct (readCount_heap world this request st r ms Hr Hms Hvalid)
      as (_ & _ & Hex & Hout).
    split; [exact Hex|].
    intros response output q qs Hans Hjson Herr Hq.
    rewrite Hout, Hans. unfold derived. cbn [readOutcome].
    rewrite Hjson, Herr. cbn.
    unfold countOf, firstPointValue, firstResult, index, member.
    rewrite Hq. cbn.
    destruct (truthy _); [|done].
    destruct (KairosQueryResponse.results q) as [[|r0 rs]|]; cbn; try done.
    by destruct (KairosResult.values r0) as [[|v vs]|].
  - intros Hnot. rewrite readCount_run.
    destruct (requestHeap st !! request) as [r|] eqn:Hr; [|done].
    destruct (KairosRequest.metrics r) as [ms|] eqn:Hms; [|done].
    pose proof (forEach_updateMetric_frame attachCount ms st)
      as (_ & Hex & _ & _).
    assert (Hbad : ∃ m, m ∈ ms ∧ metricHeap st !! m = None).
    { destruct (decide (Forall (λ m, is_Some (metricHeap st !! m)) ms))
        as [Hall|Hex'].
      - exfalso. apply Hnot. exists r, ms. split; [done|]. split; [done|].
        by apply Forall_forall.
      - apply not_Forall_Exists in Hex'; [|apply _].
        apply Exists_exists in Hex' as (m & Hin & Hm).
        exists m. split; [done|]. by apply eq_None_not_Some. }
    pose proof (forEach_updateMetric_invalid attachCount ms st Hbad) as Hout.
    destruct (forEach ms _ st) as [out st1]. cbn [fst snd] in *. by subst out.
Qed.

Lemma readCount_no_points :
  (readCount (answering (ok (counted 0 0))) client 0%nat oneRequest).1
  = Returned 0.
Proof.
  refine (proj2 (proj1
    (readCount_result (answering (ok (counted 0 0))) client 0%nat oneRequest)
    _)
    {| status := 200; text := EmptyString; json := Some (counted 0 0) |}
    (counted 0 0)
    {| KairosQueryResponse.sample_size := Some 0;
       KairosQueryResponse.results :=
         Some [{| KairosResult.name := Some "m";
                  KairosResult.tags := Some ∅;
                  KairosResult.values := Some [] |}] |}
    [] eq_refl eq_refl eq_refl eq_refl).
  exists (KairosRequest.addMetric 0%nat KairosRequest.constructor), [0%nat].
  split; [reflexivity|]. split; [reflexivity|].
  intros m ->%list_elem_of_singleton. by eexists.
Defined.

Lemma readCount_some_points :
  (readCount (answering (ok (counted 1000 42))) client 0%nat oneRequest).1
  = Returned 42.
Proof. reflexivity. Qed.

(** C6, as the code has it. [readCount] makes no copy: on a request whose
    metrics are all objects, it assigns the one-element list holding the
    count aggregator (aligned sampling, 999999 years) to the [aggregators]
    of every metric object that the caller's request refers to, allocates
    nothing, leaves the request object and all other metric objects as they
    were, and what it sends is the caller's request as it then reads. *)
Theorem readCount_mutates_in_place world this (request : ref) (st : State)
    (r : KairosRequest.t) (ms : list ref) :
  requestHeap st !! request = Some r →
  KairosRequest.metrics r = Some ms →
  (∀ m, m ∈ ms → is_Some (metricHeap st !! m)) →
  let st' := (readCount world this request st).2 in
  requestHeap st' = requestHeap st
  ∧ length (metricHeap st') = length (metricHeap st)
  ∧ (∀ m, m ∈ ms →
       metricHeap st' !! m = attachCount <$> metricHeap st !! m)
  ∧ (∀ m, m ∉ ms → metricHeap st' !! m = metricHeap st !! m)
  ∧ ∃ answer,
      exchanges st' = exchanges st ++ [(queryCall this st' request, answer)].
Proof.
  intros Hr Hms Hvalid. cbv zeta. rewrite readCount_run, Hr, Hms.
  pose proof (forEach_updateMetric_frame attachCount ms st)
    as (Hreq & Hex & Hlen & _).
  destruct (forEach_updateMetric_valid attachCount ms (λ _, eq_refl) st)
    as (Hout & Hlook).
  { intros m Hm. by apply lookup_lt_is_Some, Hvalid. }
  destruct (forEach ms _ st) as [out st1]. cbn [fst snd] in *. subst out.
  cbn [snd recorded requestHeap metricHeap exchanges].
  split; [done|]. split; [done|]. split; [|split].
  - intros m Hm. by rewrite Hlook, decide_True.
  - intros m Hm. by rewrite Hlook, decide_False.
  - eexists. rewrite Hex. reflexivity.
Qed.

Lemma readCount_mutates_oneRequest :
  metricHeap (readCount (answering notFound) client 0%nat oneRequest).2 !! 0%nat
  = attachCount <$> metricHeap oneRequest !! 0%nat.
Proof.
  refine (proj1 (proj2 (proj2
    (readCount_mutates_in_place (answering notFound) client 0%nat oneRequest
       (KairosRequest.addMetric 0%nat KairosRequest.constructor) [0%nat]
       eq_refl eq_refl _))) 0%nat _).
  - intros m ->%list_elem_of_singleton. by eexists.
  - by left.
Defined.

(** C6 fails: after the call the caller's request no longer serialises as
    before, because its metric object now carries the aggregator. *)
Lemma readCount_changes_callers_request :
  snapshot (readCount (answering (ok (counted 0 0))) client 0%nat oneRequest).2
    0%nat
  ≠ snapshot oneRequest 0%nat
  ∧ metricHeap
      (readCount (answering (ok (counted 0 0))) client 0%nat oneRequest).2
    = [attachCount (KairosRequestMetric.constructor (Some "m"))]
  ∧ length (requestHeap
      (readCount (answering (ok (counted 0 0))) client 0%nat oneRequest).2)
    = length (requestHeap oneRequest).
Proof. split; [|split]; [discriminate | reflexivity | reflexivity]. Qed.

(** *** One iteration of the loop of [readCountLong] *)

Lemma updateRequest_run (request : ref) f (st : State) (r : KairosRequest.t) :
  requestHeap st !! request = Some r →
  updateRequest request f st = (Returned (), withRequest st request (f r)).
Proof.
  intros Hr. unfold updateRequest, withRequest. rewrite Hr. do 2 f_equal.
  apply list_eq. intros j. destruct (decide (request = j)) as [<-|Hj].
  - rewrite list_lookup_alter_eq, list_lookup_insert_eq, Hr; [done|].
    by eapply lookup_lt_Some.
  - by rewrite list_lookup_alter_ne, list_lookup_insert_ne.
Qed.

Lemma lookup_withRequest (st : State) (request : ref) (r r' : KairosRequest.t) :
  requestHeap st !! request = Some r →
  requestHeap (withRequest st request r') !! request = Some r'.
Proof.
  intros Hr. cbn. apply list_lookup_insert_eq. by eapply lookup_lt_Some.
Qed.

Lemma withRequest_twice (st : State) (request : ref) (a b : KairosRequest.t) :
  withRequest (withRequest st request a) request b = withRequest st request b.
Proof. unfold withRequest. cbn. by rewrite list_insert_insert_eq. Qed.

(** The three assignments to the request at the head of an iteration. *)
Lemma window_assignments (request : ref) settings (currentTime : Z)
    (st : State) (r : KairosRequest.t) {A} (k : M A) :
  requestHeap st !! request = Some r →
  (updateRequest request (KairosRequest.set_end_absolute currentTime);;
   updateRequest request
     (KairosRequest.set_start_absolute
        (currentTime - TimeIntervalCountingSettings.interval settings + 1));;
   r ← readRequest request;
   (if lessThan (KairosRequest.start_absolute r) 0
    then updateRequest request (KairosRequest.set_start_absolute 0)
    else mret ());;
   k) st
  = k (withRequest st request (windowed settings currentTime r)).
Proof.
  intros Hr.
  rewrite bind_run, (updateRequest_run _ _ _ _ Hr).
  pose proof (lookup_withRequest st request r
                (KairosRequest.set_end_absolute currentTime r) Hr) as Hr1.
  rewrite bind_run, (updateRequest_run _ _ _ _ Hr1), withRequest_twice.
  set (r2 := KairosRequest.set_start_absolute _ _).
  pose proof (lookup_withRequest st request r r2 Hr) as Hr2.
  rewrite bind_run. unfold readRequest at 1. rewrite Hr2. cbn [member].
  rewrite bind_run. cbn [lessThan KairosRequest.start_absolute r2
                         KairosRequest.set_start_absolute].
  destruct (Z.ltb_spec
              (currentTime - TimeIntervalCountingSettings.interval settings + 1)
              0) as [Hneg|Hpos].
  - rewrite (updateRequest_run _ _ _ _ Hr2), withRequest_twice.
    f_equal. unfold withRequest, windowed. cbn. do 3 f_equal.
    by rewrite Z.max_l by lia.
  - cbn. f_equal. unfold withRequest, windowed. cbn. do 3 f_equal.
    by rewrite Z.max_r by lia.
Qed.

Lemma loop_stops world this (fuel : nat) (request : ref) settings
    (currentTime nonZeroTime totalCount : Z) (st : State) :
  (0 <? currentTime)
  && (Z.abs (currentTime - nonZeroTime)
      <=? TimeIntervalCountingSettings.deadInterval settings) = false →
  readCountLong_loop world this fuel request settings
    currentTime nonZeroTime totalCount st
  = (Returned totalCount, st).
Proof. intros Hc. destruct fuel; cbn [readCountLong_loop]; by rewrite Hc. Qed.

Lemma loop_step world this (fuel : nat) (request : ref) settings
    (currentTime nonZeroTime totalCount : Z) (st : State)
    (r : KairosRequest.t) :
  requestHeap st !! request = Some r →
  (0 <? currentTime)
  && (Z.abs (currentTime - nonZeroTime)
      <=? TimeIntervalCountingSettings.deadInterval settings) = true →
  let st1 := withRequest st request (windowed settings currentTime r) in
  let call := queryCall this st1 request in
  let answer := fetch_answer world (exchanges st) call in
  readCountLong_loop world this (S fuel) request settings
    currentTime nonZeroTime totalCount st
  = match readOutcome answer ≫= countOf with
    | Returned currentCount =>
        readCountLong_loop world this fuel request settings
          (currentTime - TimeIntervalCountingSettings.interval settings)
          (if 0 <? currentCount then currentTime else nonZeroTime)
          (totalCount + currentCount)
          (recorded st1 call answer)
    | Threw e => (Threw e, recorded st1 call answer)
    | OutOfFuel => (OutOfFuel, recorded st1 call answer)
    end.
Proof.
  intros Hr Hc. cbv zeta. cbn [readCountLong_loop]. rewrite Hc.
  rewrite (window_assignments _ _ _ _ _ _ Hr).
  rewrite bind_run, read_run. cbv zeta.
  change (exchanges (withRequest st request _)) with (exchanges st).
  destruct (readOutcome _) as [output|e|]; [|done|done].
  rewrite bind_run. unfold lift at 1. cbn [mbind Outcome_bind].
  by destruct (countOf output).
Qed.

(** The call of an iteration asks for the window
    [[max(0, currentTime − interval + 1), currentTime]]. *)
Lemma window_of_call this (st : State) (request : ref) settings
    (currentTime : Z) (r : KairosRequest.t) :
  requestHeap st !! request = Some r →
  let call := queryCall this
                (withRequest st request (windowed settings currentTime r))
                request in
  startOf call
  = Some (Z.max 0 (currentTime
                   - TimeIntervalCountingSettings.interval settings + 1))
  ∧ endOf call = Some currentTime.
Proof.
  intros Hr. cbv zeta. unfold startOf, endOf, queryCall, snapshot.
  cbn [call_init body getPostJsonRequest].
  by rewrite (lookup_withRequest _ _ _ _ Hr).
Qed.

(** *** Entering the loop *)

Lemma updateMetric_last (mh : list KairosRequestMetric.t)
    (rh : list KairosRequest.t) (ex : list Exchange) f c :
  updateMetric (length mh) f
    {| metricHeap := mh ++ [c]; requestHeap := rh; exchanges := ex |}
  = (Returned (),
     {| metricHeap := mh ++ [f c]; requestHeap := rh; exchanges := ex |}).
Proof.
  unfold updateMetric. cbn [metricHeap requestHeap exchanges].
  rewrite list_lookup_middle by done. do 2 f_equal.
  rewrite <- (Nat.add_0_r (length mh)) at 1. by rewrite alter_app_r.
Qed.

Lemma updateRequest_last (mh : list KairosRequestMetric.t)
    (rh : list KairosRequest.t) (ex : list Exchange) f c :
  updateRequest (length rh) f
    {| metricHeap := mh; requestHeap := rh ++ [c]; exchanges := ex |}
  = (Returned (),
     {| metricHeap := mh; requestHeap := rh ++ [f c]; exchanges := ex |}).
Proof.
  unfold updateRequest. cbn [metricHeap requestHeap exchanges].
  rewrite list_lookup_middle by done. do 2 f_equal.
  rewrite <- (Nat.add_0_r (length rh)) at 1. by rewrite alter_app_r.
Qed.

Lemma createSimpleRequest_run (metricName : string)
    (tags : option KairosMultiTags) (st : State) :
  createSimpleRequest metricName tags st
  = (Returned (length (requestHeap st)),
     {| metricHeap :=
          metricHeap st
          ++ [{| KairosRequestMetric.name := Some metricName;
                 KairosRequestMetric.tags := tags;
                 KairosRequestMetric.group_by := None;
                 KairosRequestMetric.aggregators := None |}];
        requestHeap :=
          requestHeap st
          ++ [{| KairosRequest.cache_time := Some 0;
                 KairosRequest.start_absolute := Some 1;
                 KairosRequest.end_absolute := None;
                 KairosRequest.time_zone := None;
                 KairosRequest.metrics := Some [length (metricHeap st)] |}];
        exchanges := exchanges st |}).
Proof.
  unfold createSimpleRequest. rewrite bind_run. unfold newMetric at 1.
  rewrite bind_run, updateMetric_last.
  rewrite bind_run.
  assert (Htags :
    match tags with
    | Some _ =>
        updateMetric (length (metricHeap st))
          (KairosRequestMetric.set_tags tags)
    | None => mret ()
    end
      {| metricHeap :=
           metricHeap st
           ++ [KairosRequestMetric.set_name (Some metricName)
                 (KairosRequestMetric.constructor None)];
         requestHeap := requestHeap st;
         exchanges := exchanges st |}
    = (Returned (),
       {| metricHeap :=
            metricHeap st
            ++ [{| KairosRequestMetric.name := Some metricName;
                   KairosRequestMetric.tags := tags;
                   KairosRequestMetric.group_by := None;
                   KairosRequestMetric.aggregators := None |}];
          requestHeap := requestHeap st;
          exchanges := exchanges st |})).
  { destruct tags as [t|]; [by rewrite updateMetric_last | done]. }
  rewrite Htags. rewrite bind_run. unfold newRequest at 1.
  cbn [metricHeap requestHeap exchanges].
  rewrite bind_run, updateRequest_last.
  rewrite bind_run, updateRequest_last.
  rewrite bind_run, updateRequest_last.
  reflexivity.
Qed.

Lemma readCountLong_run world this (fuel : nat) (metricName : string)
    (tags : option KairosMultiTags) settings (st : State) :
  1 < TimeIntervalCountingSettings.interval settings →
  readCountLong world this fuel metricName tags settings st
  = readCountLong_loop world this fuel (length (requestHeap st)) settings
      (getTime world) (getTime world) 0 (prepared st metricName tags).
Proof.
  intros Hint. unfold readCountLong.
  destruct (Z.ltb_spec 1 (TimeIntervalCountingSettings.interval settings));
    [|lia]. cbn [negb].
  rewrite bind_run, createSimpleRequest_run.
  rewrite bind_run. unfold readRequest at 1.
  cbn [metricHeap requestHeap exchanges].
  rewrite list_lookup_middle by done. cbn [member].
  rewrite bind_run. unfold lift at 1. cbn [KairosRequest.metrics member].
  rewrite bind_run. unfold lift at 1. cbn [lookup list_lookup member].
  rewrite bind_run, updateMetric_last. reflexivity.
Qed.

Lemma prepared_request (st : State) (metricName : string)
    (tags : option KairosMultiTags) :
  requestHeap (prepared st metricName tags) !! length (requestHeap st)
  = Some {| KairosRequest.cache_time := Some 0;
            KairosRequest.start_absolute := Some 1;
            KairosRequest.end_absolute := None;
            KairosRequest.time_zone := None;
            KairosRequest.metrics := Some [length (metricHeap st)] |}.
Proof. unfold prepared. cbn. by rewrite list_lookup_middle. Qed.

(** *** The loop of [readCountLong] *)

Lemma countOf_not_OutOfFuel (answer : Settled) :
  readOutcome answer ≫= countOf ≠ OutOfFuel.
Proof.
  destruct answer as [response|reason]; [|done]. cbn [readOutcome].
  destruct (json response) as [obj|]; [|done].
  destruct (KairosResponse.errors obj); [done|]. cbn [mbind Outcome_bind].
  unfold countOf, index, member.
  destruct (KairosResponse.queries obj) as [[|q qs]|]; cbn; try done.
  destruct (truthy _); [|done].
  destruct (KairosQueryResponse.results q) as [[|r rs]|]; cbn; try done.
  by destruct (KairosResult.values r) as [[|v vs]|].
Qed.

Section Loop.
Context (world : World) (this : ReadOnlyKairosDB) (request : ref)
  (settings : TimeIntervalCountingSettings.t).

Local Abbreviation interval :=
  (TimeIntervalCountingSettings.interval settings).
Local Abbreviation deadInterval :=
  (TimeIntervalCountingSettings.deadInterval settings).

(** Enough fuel: the loop ends, by a return or by a throw. *)
Lemma loop_terminates (fuel : nat) :
  0 < interval →
  ∀ (currentTime nonZeroTime totalCount : Z) (st : State) r,
    requestHeap st !! request = Some r →
    currentTime ≤ Z.of_nat fuel * interval →
    (readCountLong_loop world this fuel request settings
       currentTime nonZeroTime totalCount st).1 ≠ OutOfFuel.
Proof.
  intros Hint. induction fuel as [|fuel IH];
    intros currentTime nonZeroTime totalCount st r Hr Hfuel.
  - rewrite loop_stops; [done|]. apply andb_false_intro1, Z.ltb_ge. lia.
  - destruct ((0 <? currentTime)
              && (Z.abs (currentTime - nonZeroTime) <=? deadInterval))
      eqn:Hc; [|by rewrite loop_stops].
    rewrite (loop_step _ _ _ _ _ _ _ _ _ _ Hr Hc). cbv zeta.
    pose proof (countOf_not_OutOfFuel
      (fetch_answer world (exchanges st)
         (queryCall this
            (withRequest st request (windowed settings currentTime r))
            request))) as Hno.
    destruct (readOutcome _ ≫= countOf) as [c|e|]; [|done|done].
    eapply IH.
    + cbn [recorded requestHeap]. by eapply lookup_withRequest.
    + lia.
Qed.

(** What the loop leaves in the list of exchanges, whatever the server
    answers: the windows step back by [interval] from [currentTime] and end
    above 0; each lies within [deadInterval] of the marker the loop was
    entered with or of an earlier window with a positive count; a returned
    total is the incoming total plus the counts of the windows. *)
Lemma loop_trace (fuel : nat) :
  0 < interval →
  ∀ (currentTime nonZeroTime totalCount : Z) (st : State) r,
    requestHeap st !! request = Some r →
    currentTime ≤ nonZeroTime →
    let run := readCountLong_loop world this fuel request settings
                 currentTime nonZeroTime totalCount st in
    ∃ new : list Exchange,
      exchanges run.2 = exchanges st ++ new
      ∧ (∀ (k : nat) ex, new !! k = Some ex →
           0 < currentTime - Z.of_nat k * interval
           ∧ endOf ex.1 = Some (currentTime - Z.of_nat k * interval)
           ∧ startOf ex.1
             = Some (Z.max 0 (currentTime - Z.of_nat k * interval
                              - interval + 1)))
      ∧ (∀ (k : nat) ex, new !! k = Some ex →
           Z.of_nat k * interval + (nonZeroTime - currentTime) ≤ deadInterval
           ∨ ∃ (j : nat) exj,
               (j < k)%nat ∧ new !! j = Some exj ∧ 0 < windowCount exj.2
               ∧ (Z.of_nat k - Z.of_nat j) * interval ≤ deadInterval)
      ∧ (∀ total, run.1 = Returned total →
           total = totalCount + sumZ (windowCount ∘ snd <$> new)).
Proof.
  intros Hint.
  assert (HS : ∀ k : nat,
            Z.of_nat (S k) * interval = Z.of_nat k * interval + interval).
  { intros k. rewrite Nat2Z.inj_succ. ring. }
  induction fuel as [|fuel IH];
    intros currentTime nonZeroTime totalCount st r Hr Hnz; cbv zeta.
  - exists []. rewrite app_nil_r.
    destruct ((0 <? currentTime)
              && (Z.abs (currentTime - nonZeroTime) <=? deadInterval))
      eqn:Hc.
    + cbn [readCountLong_loop]. rewrite Hc.
      repeat split; try done.
    + rewrite loop_stops by done. repeat split; try done.
      intros total [= <-]. cbn. lia.
  - destruct ((0 <? currentTime)
              && (Z.abs (currentTime - nonZeroTime) <=? deadInterval))
      eqn:Hc.
    2: { exists []. rewrite app_nil_r, loop_stops by done.
         repeat split; try done. intros total [= <-]. cbn. lia. }
    rewrite (loop_step _ _ _ _ _ _ _ _ _ _ Hr Hc). cbv zeta.
    apply andb_prop in Hc as [Hpos%Z.ltb_lt Hdead%Z.leb_le].
    destruct (window_of_call this st request settings currentTime r Hr)
      as [Hstart Hend].
    set (st1 := withRequest st request (windowed settings currentTime r))
      in *.
    set (call := queryCall this st1 request) in *.
    set (answer := fetch_answer world (exchanges st) call).
    assert (Hhead : ∀ (k : nat) ex (tl : list Exchange),
              ((call, answer) :: tl) !! k = Some ex → k = 0%nat →
              0 < currentTime - Z.of_nat k * interval
              ∧ endOf ex.1 = Some (currentTime - Z.of_nat k * interval)
              ∧ startOf ex.1
                = Some (Z.max 0 (currentTime - Z.of_nat k * interval
                                 - interval + 1))).
    { intros k ex tl Hk ->. injection Hk as <-. cbn [fst].
      rewrite Hstart, Hend.
      replace (currentTime - Z.of_nat 0 * interval) with currentTime by lia.
      done. }
    assert (Hhead_dead :
              Z.of_nat 0 * interval + (nonZeroTime - currentTime)
              ≤ deadInterval) by lia.
    destruct (readOutcome answer ≫= countOf) as [c|e|] eqn:Hout.
    + edestruct (IH (currentTime - interval)
                    (if 0 <? c then currentTime else nonZeroTime)
                    (totalCount + c) (recorded st1 call answer))
        as (new & Hex & Hshape & Hstretch & Hsum).
      { cbn [recorded requestHeap]. by eapply lookup_withRequest. }
      { destruct (0 <? c); lia. }
      exists ((call, answer) :: new). split; [|split; [|split]].
      * rewrite Hex. cbn [recorded exchanges].
        by rewrite <- app_assoc.
      * intros [|k] ex Hk; [by eapply Hhead|].
        cbn in Hk. destruct (Hshape k ex Hk) as (H1 & H2 & H3).
        rewrite H2, H3, HS. split; [lia|]. split; f_equal; lia.
      * intros [|k] ex Hk; [by left|].
        cbn in Hk. destruct (Hstretch k ex Hk) as [Hl|(j & exj & Hj)].
        -- rewrite HS. destruct (Z.ltb_spec 0 c) as [Hc|Hc].
           ++ right. exists 0%nat, (call, answer). cbn [fst snd].
              split; [lia|]. split; [done|]. unfold windowCount.
              rewrite Hout. split; [done|]. lia.
           ++ left. lia.
        -- right. exists (S j), exj. destruct Hj as (? & ? & ? & ?).
           split; [lia|]. split; [done|]. split; [done|].
           rewrite !Nat2Z.inj_succ.
           by replace (Z.succ (Z.of_nat k) - Z.succ (Z.of_nat j))
             with (Z.of_nat k - Z.of_nat j) by lia.
      * intros total Htotal.
        rewrite (Hsum total Htotal).
        assert (Hw : windowCount answer = c)
          by (unfold windowCount; by rewrite Hout).
        rewrite fmap_cons. unfold sumZ. cbn [foldr compose snd].
        rewrite Hw. lia.
    + exists [(call, answer)]. split; [done|]. split; [|split].
      * intros [|k] ex Hk; [by eapply Hhead | done].
      * intros [|k] ex Hk; [by left | done].
      * intros total [=].
    + exists [(call, answer)]. split; [done|]. split; [|split].
      * intros [|k] ex Hk; [by eapply Hhead | done].
      * intros [|k] ex Hk; [by left | done].
      * intros total [=].
Qed.

(** Against a server that reports [counts], the loop computes the scan of
    the specification. *)
Lemma loop_refines_scan (counts : Z → Z) (fuel : nat) :
  reports world counts →
  ∀ (currentTime nonZeroTime totalCount : Z) (st : State) r,
    requestHeap st !! request = Some r →
    (readCountLong_loop world this fuel request settings
       currentTime nonZeroTime totalCount st).1
    = match scan fuel counts settings currentTime nonZeroTime totalCount with
      | Some total => Returned total
      | None => OutOfFuel
      end.
Proof.
  intros Hrep. induction fuel as [|fuel IH];
    intros currentTime nonZeroTime totalCount st r Hr.
  - cbn [readCountLong_loop scan]. by destruct (_ && _).
  - destruct ((0 <? currentTime)
              && (Z.abs (currentTime - nonZeroTime) <=? deadInterval))
      eqn:Hc.
    2: { rewrite loop_stops by done. cbn [scan]. by rewrite Hc. }
    rewrite (loop_step _ _ _ _ _ _ _ _ _ _ Hr Hc). cbv zeta.
    cbn [scan]. rewrite Hc.
    destruct (window_of_call this st request settings currentTime r Hr)
      as [_ Hend].
    rewrite (Hrep _ _ _ Hend).
    erewrite IH; [done|].
    cbn [recorded requestHeap]. by eapply lookup_withRequest.
Qed.

(** More fuel than enough changes nothing. *)
Lemma loop_fuel_irrelevant (fuel : nat) :
  ∀ (currentTime nonZeroTime totalCount : Z) (st : State) r,
    requestHeap st !! request = Some r →
    (readCountLong_loop world this fuel request settings
       currentTime nonZeroTime totalCount st).1 ≠ OutOfFuel →
    ∀ extra : nat,
      readCountLong_loop world this (fuel + extra) request settings
        currentTime nonZeroTime totalCount st
      = readCountLong_loop world this fuel request settings
          currentTime nonZeroTime totalCount st.
Proof.
  induction fuel as [|fuel IH];
    intros currentTime nonZeroTime totalCount st r Hr Hend extra;
    destruct ((0 <? currentTime)
              && (Z.abs (currentTime - nonZeroTime) <=? deadInterval))
      eqn:Hc; try by rewrite !loop_stops.
  - exfalso. apply Hend. cbn [readCountLong_loop]. by rewrite Hc.
  - cbn [Nat.add]. rewrite !(loop_step _ _ _ _ _ _ _ _ _ _ Hr Hc).
    rewrite (loop_step _ _ _ _ _ _ _ _ _ _ Hr Hc) in Hend. cbv zeta in *.
    destruct (readOutcome _ ≫= countOf) as [c|e|]; [|done|done].
    eapply IH; [|exact Hend].
    cbn [recorded requestHeap]. by eapply lookup_withRequest.
Qed.
End Loop.

(** *** The scan of the specification *)

(** Once the windows deliver nothing between the marker's dead interval and
    the current time, the scan adds nothing more and ends. *)
Lemma scan_quiet (counts : Z → Z) settings (fuel : nat) :
  0 < TimeIntervalCountingSettings.interval settings →
  ∀ currentTime nonZeroTime totalCount : Z,
    currentTime ≤ nonZeroTime →
    (∀ t, nonZeroTime - TimeIntervalCountingSettings.deadInterval settings ≤ t
          ≤ currentTime → counts t = 0) →
    currentTime ≤ Z.of_nat fuel * TimeIntervalCountingSettings.interval settings →
    scan fuel counts settings currentTime nonZeroTime totalCount
    = Some totalCount.
Proof.
  intros Hint. induction fuel as [|fuel IH];
    intros currentTime nonZeroTime totalCount Hnz Hzero Hfuel;
    cbn [scan];
    destruct ((0 <? currentTime) && _) eqn:Hc; try done;
    apply andb_prop in Hc as [Hpos%Z.ltb_lt Hdead%Z.leb_le].
  - lia.
  - rewrite (Hzero currentTime) by lia. cbn [Z.ltb Z.compare].
    rewrite Z.add_0_r. apply IH; [lia | intros t Ht; apply Hzero; lia | lia].
Qed.

Lemma scan_two_windows (counts : Z → Z) settings (now : Z) (fuel : nat) :
  let interval := TimeIntervalCountingSettings.interval settings in
  let deadInterval := TimeIntervalCountingSettings.deadInterval settings in
  0 < interval → interval ≤ deadInterval →
  (∀ t, now - interval - deadInterval ≤ t ≤ now - 2 * interval →
        counts t = 0) →
  now ≤ Z.of_nat fuel * interval →
  scan fuel counts settings now now 0
  = Some ((if 0 <? now then counts now else 0)
          + (if 0 <? now - interval then counts (now - interval) else 0)).
Proof.
  intros interval deadInterval Hint Hdead Hzero Hfuel.
  destruct (Z.ltb_spec 0 now) as [Hpos|Hneg]; cycle 1.
  { replace (0 <? now - interval) with false
      by (symmetry; apply Z.ltb_ge; lia).
    destruct fuel; cbn [scan];
      (replace (0 <? now) with false by (symmetry; apply Z.ltb_ge; lia));
      done. }
  destruct fuel as [|fuel]; [lia|].
  cbn [scan]. fold interval deadInterval.
  replace ((0 <? now) && (Z.abs (now - now) <=? deadInterval)) with true
    by (symmetry; apply andb_true_intro; split;
        [apply Z.ltb_lt | apply Z.leb_le]; lia).
  replace (if 0 <? counts now then now else now) with now
    by (by destruct (0 <? counts now)).
  destruct (Z.ltb_spec 0 (now - interval)) as [Hsecond|Hsecond].
  - destruct fuel as [|fuel]; [lia|].
    cbn [scan]. fold interval deadInterval.
    replace ((0 <? now - interval)
             && (Z.abs (now - interval - now) <=? deadInterval)) with true
      by (symmetry; apply andb_true_intro; split;
          [apply Z.ltb_lt | apply Z.leb_le]; lia).
    rewrite scan_quiet; [f_equal; lia | done | ..].
    + destruct (0 <? counts (now - interval)); lia.
    + intros t Ht. apply Hzero.
      fold interval deadInterval in Ht.
      destruct (0 <? counts (now - interval)); lia.
    + fold interval. lia.
  - destruct fuel; cbn [scan];
      (replace (0 <? now - interval) with false
         by (symmetry; apply Z.ltb_ge; lia));
      cbn [andb]; f_equal; lia.
Qed.

(** Without the guard on [interval] the scan need not end: with
    [interval = 0] the current time never moves. *)
Lemma scan_zero_interval_runs_out (counts : Z → Z) (deadInterval now : Z)
    (fuel : nat) :
  0 < now → 0 ≤ deadInterval →
  ∀ totalCount,
    scan fuel counts
      {| TimeIntervalCountingSettings.interval := 0;
         TimeIntervalCountingSettings.deadInterval := deadInterval |}
      now now totalCount
    = None.
Proof.
  intros Hnow Hdead. induction fuel as [|fuel IH]; intros totalCount;
    cbn [scan TimeIntervalCountingSettings.interval
         TimeIntervalCountingSettings.deadInterval];
    replace ((0 <? now) && (Z.abs (now - now) <=? deadInterval)) with true
      by (symmetry; apply andb_true_intro; split;
          [apply Z.ltb_lt | apply Z.leb_le]; lia);
    [done|].
  rewrite Z.sub_0_r. by destruct (0 <? counts now).
Qed.

Lemma windowServer_reports (counts : Z → Z) (now : Z) :
  reports (windowServer counts now) counts.
Proof.
  intros history call t Hend. cbn [windowServer fetch_answer].
  rewrite Hend. cbn.
  unfold countOf, index, member. cbn.
  destruct (Z.eqb_spec (counts t) 0) as [->|Hne]; done.
Qed.

(** *** [readCountLong] *)

(** C1, as the code has it. With [interval > 1], the exchanges that
    [readCountLong] adds are queries for the windows
    [[max(0, t − interval + 1), t]] at [t = now, now − interval, ...], and a
    returned value is the sum of the counts derived from their answers.
    Against a server that reports [counts] the call computes the scan of the
    specification (add the window's count, move the marker on a positive
    count, step back by [interval]).  In particular, when every window
    behind the two most recent ones, back to the dead interval, reports
    none, and [interval ≤ deadInterval] so that the scan reaches the second
    window, it returns the sum of the counts of the two most recent
    windows, whatever these counts are; a window that ends at or before
    time 0 is never queried and adds nothing. *)
Theorem readCountLong_scans_windows world this (fuel : nat)
    (metricName : string) (tags : option KairosMultiTags) settings
    (st : State) :
  1 < TimeIntervalCountingSettings.interval settings →
  let run := readCountLong world this fuel metricName tags settings st in
  let now := getTime world in
  let interval := TimeIntervalCountingSettings.interval settings in
  let deadInterval := TimeIntervalCountingSettings.deadInterval settings in
  (∃ new : list Exchange,
     exchanges run.2 = exchanges st ++ new
     ∧ (∀ (k : nat) ex, new !! k = Some ex →
          endOf ex.1 = Some (now - Z.of_nat k * interval)
          ∧ startOf ex.1
            = Some (Z.max 0 (now - Z.of_nat k * interval - interval + 1)))
     ∧ (∀ total, run.1 = Returned total →
          total = sumZ (windowCount ∘ snd <$> new)))
  ∧ (∀ counts, reports world counts →
       run.1 = match scan fuel counts settings now now 0 with
               | Some total => Returned total
               | None => OutOfFuel
               end)
  ∧ (∀ counts, reports world counts →
       interval ≤ deadInterval →
       (∀ t, now - interval - deadInterval ≤ t ≤ now - 2 * interval →
             counts t = 0) →
       now ≤ Z.of_nat fuel * interval →
       run.1
       = Returned ((if 0 <? now then counts now else 0)
                   + (if 0 <? now - interval
                      then counts (now - interval) else 0))).
Proof.
  intros Hint. cbv zeta. rewrite readCountLong_run by done.
  pose proof (prepared_request st metricName tags) as Hr.
  split; [|split].
  - destruct (loop_trace world this (length (requestHeap st)) settings fuel
                ltac:(lia) (getTime world) (getTime world) 0
                (prepared st metricName tags) _ Hr ltac:(lia))
      as (new & Hex & Hshape & _ & Hsum).
    exists new. split; [exact Hex|]. split.
    + intros k ex Hk. by destruct (Hshape k ex Hk) as (_ & ? & ?).
    + intros total Htotal. rewrite (Hsum total Htotal). lia.
  - intros counts Hrep. by eapply loop_refines_scan.
  - intros counts Hrep Hdead Hzero Hfuel.
    erewrite loop_refines_scan by done.
    rewrite scan_two_windows; [done | lia | done..].
Qed.

Lemma readCountLong_two_recent_windows :
  (readCountLong (windowServer twoRecentWindows 100) client 20 "m" None
     {| TimeIntervalCountingSettings.interval := 10;
        TimeIntervalCountingSettings.deadInterval := 25 |} emptyState).1
  = Returned (twoRecentWindows 100 + twoRecentWindows (100 - 10)).
Proof.
  refine (proj2 (proj2
    (readCountLong_scans_windows (windowServer twoRecentWindows 100) client
       20 "m" None
       {| TimeIntervalCountingSettings.interval := 10;
          TimeIntervalCountingSettings.deadInterval := 25 |} emptyState _))
    twoRecentWindows (windowServer_reports twoRecentWindows 100)
    _ _ _); cbn; try lia; try reflexivity.
  intros t Ht. unfold twoRecentWindows.
  destruct (Z.eqb_spec t 100); [lia|]. destruct (Z.eqb_spec t 90); [lia|].
  done.
Defined.

(** C1 fails when [deadInterval < interval]: the server reports 5 and 7 in
    the two most recent windows and nothing before, the dead interval 0 is
    below any gap, and the call returns 5: the loop ends after the first
    window, because the second already lies [interval] behind the marker. *)
Lemma readCountLong_stops_after_first_window :
  reports (windowServer twoRecentWindows 100) twoRecentWindows
  ∧ twoRecentWindows 100 = 5 ∧ twoRecentWindows 90 = 7
  ∧ (∀ t, t < 90 → twoRecentWindows t = 0)
  ∧ (readCountLong (windowServer twoRecentWindows 100) client 20 "m" None
       {| TimeIntervalCountingSettings.interval := 10;
          TimeIntervalCountingSettings.deadInterval := 0 |} emptyState).1
    = Returned 5
  ∧ (readCountLong (windowServer twoRecentWindows 100) client 20 "m" None
       {| TimeIntervalCountingSettings.interval := 10;
          TimeIntervalCountingSettings.deadInterval := 0 |} emptyState).1
    ≠ Returned (5 + 7).
Proof.
  split; [apply windowServer_reports|].
  split; [reflexivity|]. split; [reflexivity|]. split.
  - intros t Ht. unfold twoRecentWindows.
    destruct (Z.eqb_spec t 100); [lia|]. destruct (Z.eqb_spec t 90); [lia|].
    done.
  - split; [reflexivity | discriminate].
Qed.

(** C2. With [interval > 1] (and [deadInterval ≥ 0]) the loop of
    [readCountLong] ends: any fuel of at least [now / interval], rounded up,
    is enough for the call to return or throw, and more fuel does not change
    what it does.  The loop body runs only
    while [0 < currentTime] and [|currentTime − nonZeroTime| ≤ deadInterval]:
    the windows it queries end at [now − k·interval > 0], stepping back by
    [interval], and each lies within [deadInterval] of the start or of an
    earlier window with a positive count. *)
Theorem readCountLong_terminates world this (metricName : string)
    (tags : option KairosMultiTags) settings (st : State) :
  1 < TimeIntervalCountingSettings.interval settings →
  0 ≤ TimeIntervalCountingSettings.deadInterval settings →
  let now := getTime world in
  let interval := TimeIntervalCountingSettings.interval settings in
  let deadInterval := TimeIntervalCountingSettings.deadInterval settings in
  (∀ fuel : nat,
     now ≤ Z.of_nat fuel * interval →
     (readCountLong world this fuel metricName tags settings st).1
     ≠ OutOfFuel
     ∧ ∀ extra : nat,
         readCountLong world this (fuel + extra) metricName tags settings st
         = readCountLong world this fuel metricName tags settings st)
  ∧ (∀ (fuel : nat) request currentTime nonZeroTime totalCount st',
       ¬ (0 < currentTime ∧ Z.abs (currentTime - nonZeroTime) ≤ deadInterval) →
       readCountLong_loop world this fuel request settings
         currentTime nonZeroTime totalCount st'
       = (Returned totalCount, st'))
  ∧ (∀ fuel : nat, ∃ new : list Exchange,
       exchanges (readCountLong world this fuel metricName tags settings st).2
       = exchanges st ++ new
       ∧ ∀ (k : nat) ex, new !! k = Some ex →
           0 < now - Z.of_nat k * interval
           ∧ endOf ex.1 = Some (now - Z.of_nat k * interval)
           ∧ (Z.of_nat k * interval ≤ deadInterval
              ∨ ∃ (j : nat) exj,
                  (j < k)%nat ∧ new !! j = Some exj ∧ 0 < windowCount exj.2
                  ∧ (Z.of_nat k - Z.of_nat j) * interval ≤ deadInterval)).
Proof.
  intros Hint Hdead. cbv zeta.
  pose proof (prepared_request st metricName tags) as Hr.
  split; [|split].
  - intros fuel Hfuel.
    assert (Hend : (readCountLong world this fuel metricName tags settings
                      st).1 ≠ OutOfFuel).
    { rewrite readCountLong_run by done.
      eapply loop_terminates; [lia | exact Hr | done]. }
    split; [exact Hend|]. intros extra.
    rewrite !readCountLong_run in * by done.
    by eapply loop_fuel_irrelevant.
  - intros fuel request currentTime nonZeroTime totalCount st' Hc.
    apply loop_stops. apply andb_false_iff.
    destruct (Z.ltb_spec 0 currentTime); [|by left]. right.
    apply Z.leb_gt. lia.
  - intros fuel. rewrite readCountLong_run by done.
    destruct (loop_trace world this (length (requestHeap st)) settings fuel
                ltac:(lia) (getTime world) (getTime world) 0
                (prepared st metricName tags) _ Hr ltac:(lia))
      as (new & Hex & Hshape & Hstretch & _).
    exists new. split; [exact Hex|]. intros k ex Hk.
    destruct (Hshape k ex Hk) as (? & ? & _).
    split; [done|]. split; [done|].
    destruct (Hstretch k ex Hk) as [Hl|Hrgt]; [left; lia | by right].
Qed.

Lemma readCountLong_terminates_two_windows :
  (readCountLong (windowServer twoRecentWindows 100) client 10 "m" None
     {| TimeIntervalCountingSettings.interval := 10;
        TimeIntervalCountingSettings.deadInterval := 25 |} emptyState).1
  ≠ OutOfFuel.
Proof.
  refine (proj1 (proj1
    (readCountLong_terminates (windowServer twoRecentWindows 100) client
       "m" None
       {| TimeIntervalCountingSettings.interval := 10;
          TimeIntervalCountingSettings.deadInterval := 25 |} emptyState _ _)
    10%nat _)); cbn; lia.
Defined.

(** C10. Every request that [readCountLong] issues has both window bounds
    set, with [0 ≤ start_absolute ≤ end_absolute]: the loop is entered only
    with [interval > 1], the end of a window is the current time, which is
    above 0, and its start is clamped to 0 from below. *)
Theorem readCountLong_windows_well_formed world this (fuel : nat)
    (metricName : string) (tags : option KairosMultiTags) settings
    (st : State) :
  ∃ new : list Exchange,
    exchanges (readCountLong world this fuel metricName tags settings st).2
    = exchanges st ++ new
    ∧ ∀ ex, ex ∈ new → wellFormedWindow ex.1.
Proof.
  destruct (Z.le_gt_cases (TimeIntervalCountingSettings.interval settings) 1)
    as [Hsmall|Hint].
  { exists []. rewrite readCountLong_guard_run, app_nil_r by done.
    split; [done|]. by intros ex ?%elem_of_nil. }
  rewrite readCountLong_run by done.
  pose proof (prepared_request st metricName tags) as Hr.
  destruct (loop_trace world this (length (requestHeap st)) settings fuel
              ltac:(lia) (getTime world) (getTime world) 0
              (prepared st metricName tags) _ Hr ltac:(lia))
    as (new & Hex & Hshape & _ & _).
  exists new. split; [exact Hex|].
  intros ex [k Hk]%list_elem_of_lookup.
  destruct (Hshape k ex Hk) as (Hpos & Hend & Hstart).
  eexists _, _. split; [exact Hstart|]. split; [exact Hend|]. lia.
Qed.

Lemma readCountLong_windows_two_recent :
  ∃ new : list Exchange,
    exchanges
      (readCountLong (windowServer twoRecentWindows 25) client 20 "m" None
         {| TimeIntervalCountingSettings.interval := 10;
            TimeIntervalCountingSettings.deadInterval := 1000 |}
         emptyState).2
    = exchanges emptyState ++ new
    ∧ ∀ ex, ex ∈ new → wellFormedWindow ex.1.
Proof.
  apply (readCountLong_windows_well_formed (windowServer twoRecentWindows 25)
           client 20 "m" None
           {| TimeIntervalCountingSettings.interval := 10;
              TimeIntervalCountingSettings.deadInterval := 1000 |}
           emptyState).
Defined.

(** The clamp at 0 is reached: from [now = 25] with windows of length 10 the
    third request asks for [[0, 5]]. *)
Lemma readCountLong_clamps_last_window :
  (λ ex : Exchange, (startOf ex.1, endOf ex.1))
    <$> exchanges
          (readCountLong (windowServer twoRecentWindows 25) client 20 "m" None
             {| TimeIntervalCountingSettings.interval := 10;
                TimeIntervalCountingSettings.deadInterval := 1000 |}
             emptyState).2
  = [(Some 16, Some 25); (Some 6, Some 15); (Some 0, Some 5)].
Proof. reflexivity. Qed.

(** Without the guard the loop need not end: against a server that reports
    [counts], with [interval = 0], no fuel is enough. *)
Lemma readCountLong_loop_zero_interval_runs_out world this (counts : Z → Z)
    (request : ref) (deadInterval : Z) (st : State) r (fuel : nat) :
  reports world counts →
  requestHeap st !! request = Some r →
  0 < getTime world → 0 ≤ deadInterval →
  (readCountLong_loop world this fuel request
     {| TimeIntervalCountingSettings.interval := 0;
        TimeIntervalCountingSettings.deadInterval := deadInterval |}
     (getTime world) (getTime world) 0 st).1
  = OutOfFuel.
Proof.
  intros Hrep Hr Hnow Hdead.
  erewrite loop_refines_scan by done.
  by rewrite scan_zero_interval_runs_out.
Qed.

(** ** Further properties of the module *)

(** *** What the network calls leave alone *)

Lemma recorded_frame world (st : State) (call : Call) :
  sameHeap st (recorded st call (fetch_answer world (exchanges st) call))
  ∧ oneExchange world st
      (recorded st call (fetch_answer world (exchanges st) call)).
Proof. split; [done|]. by exists call. Qed.

Lemma fetch_then_pure_frame {A} world (url : string) (init : RequestInit)
    (k : Response → M A) (st : State) :
  (∀ response st1, (k response st1).2 = st1) →
  let st' := ((response ← fetch world url init; k response) st).2 in
  sameHeap st st' ∧ oneExchange world st st'.
Proof.
  intros Hk. cbv zeta. rewrite bind_run, fetch_run. cbv zeta.
  set (call := {| call_url := url; call_init := init |}).
  assert (Hst : (match fetch_answer world (exchanges st) call with
                 | Resolved response =>
                     k response (recorded st call (Resolved response))
                 | Rejected reason =>
                     (Threw (FetchError reason),
                      recorded st call (Rejected reason))
                 end).2
                = recorded st call (fetch_answer world (exchanges st) call)).
  { destruct (fetch_answer world (exchanges st) call); [apply Hk | done]. }
  unfold recorded in Hst.
  destruct (fetch_answer world (exchanges st) call) eqn:Hans;
    cbn [fst snd] in *.
  - destruct (k response _) as [[a|e|] st2] eqn:Hrun; cbn [snd] in *;
      subst st2; (split; [done|]); exists call; by rewrite Hans.
  - split; [done|]. exists call. by rewrite Hans.
Qed.

Lemma getMetricNames_run world this jsonNames (prefix : option string)
    (st : State) :
  getMetricNames world this jsonNames prefix st
  = match match prefix with
          | Some p => (λ encoded, "?prefix=" +:+ encoded)
                        <$> encodeURIComponent world p
          | None => Some EmptyString
          end with
    | Some part =>
        (response ← fetch world (apiUrl this +:+ "/metricnames" +:+ part)
                          {| method := GET; headers := []; body := NoBody |};
         responseObject ← match jsonNames response with
                          | Some obj => mret obj
                          | None => throw SyntaxError
                          end;
         mret (results responseObject)) st
    | None => (Threw URIError, st)
    end.
Proof.
  unfold getMetricNames. rewrite bind_run.
  destruct prefix as [p|]; [|done].
  rewrite bind_run. by destruct (encodeURIComponent world p).
Qed.

Lemma deleteMetric_run world this (metricName : string) (st : State) :
  deleteMetric world this metricName st
  = match encodeURIComponent world metricName with
    | Some encoded =>
        (response ← fetch world (apiUrl this +:+ "/metric/" +:+ encoded)
                          {| method := DELETE; headers := []; body := NoBody |};
         if negb (status response =? 204) then throw (Error (text response))
         else mret response) st
    | None => (Threw URIError, st)
    end.
Proof.
  unfold deleteMetric. rewrite bind_run.
  by destruct (encodeURIComponent world metricName).
Qed.

(** X1. Each call that talks to the server once makes exactly one exchange,
    whatever the answer, and assigns to no request and no metric object:
    [read], [getMetricTags], [write] and [delete] always, [getMetricNames]
    and [deleteMetric] whenever [encodeURIComponent] accepts the prefix or
    the metric name; when it throws its [URIError] they throw it before any
    exchange and leave the state as it was. *)
Theorem single_calls_leave_heap_unchanged world this (st : State) :
  (∀ request,
     sameHeap st (read world this request st).2
     ∧ oneExchange world st (read world this request st).2)
  ∧ (∀ metricName,
       sameHeap st (getMetricTags world this metricName st).2
       ∧ oneExchange world st (getMetricTags world this metricName st).2)
  ∧ (∀ jsonNames,
       sameHeap st (getMetricNames world this jsonNames None st).2
       ∧ oneExchange world st (getMetricNames world this jsonNames None st).2)
  ∧ (∀ jsonNames p,
       match encodeURIComponent world p with
       | Some _ =>
           sameHeap st (getMetricNames world this jsonNames (Some p) st).2
           ∧ oneExchange world st
               (getMetricNames world this jsonNames (Some p) st).2
       | None =>
           getMetricNames world this jsonNames (Some p) st
           = (Threw URIError, st)
       end)
  ∧ (∀ metricName,
       match encodeURIComponent world metricName with
       | Some _ =>
           sameHeap st (deleteMetric world this metricName st).2
           ∧ oneExchange world st (deleteMetric world this metricName st).2
       | None =>
           deleteMetric world this metricName st = (Threw URIError, st)
       end)
  ∧ (∀ items,
       sameHeap st (write world this items st).2
       ∧ oneExchange world st (write world this items st).2)
  ∧ (∀ request,
       sameHeap st (delete world this request st).2
       ∧ oneExchange world st (delete world this request st).2).
Proof.
  repeat split_and; intros.
  - rewrite read_run. apply recorded_frame.
  - apply fetch_then_pure_frame. intros response st1.
    rewrite bind_run. unfold jsonOf. by destruct (json response).
  - rewrite getMetricNames_run. apply fetch_then_pure_frame.
    intros response st1. rewrite bind_run. by destruct (jsonNames response).
  - rewrite getMetricNames_run.
    destruct (encodeURIComponent world p) as [encoded|]; [|done].
    apply fetch_then_pure_frame.
    intros response st1. rewrite bind_run. by destruct (jsonNames response).
  - rewrite deleteMetric_run.
    destruct (encodeURIComponent world metricName) as [encoded|]; [|done].
    apply fetch_then_pure_frame. intros response st1. by destruct (negb _).
  - apply fetch_then_pure_frame. intros response st1.
    by destruct (negb _).
  - unfold delete, stringify. rewrite bind_run.
    apply fetch_then_pure_frame. intros response st1.
    by destruct (negb _).
Qed.

(** *** [read] and the HTTP status *)

(** X2. [read] never looks at the HTTP status or the body text: a rejected
    [fetch] is thrown as it is, a body that is not JSON is a [SyntaxError],
    and two responses that decode alike give the same outcome whatever
    their status, so that an error status with a JSON body that has no
    [errors] field is returned like a success. *)
Theorem read_ignores_status world world' this (request : ref) (st : State) :
  let call := queryCall this st request in
  (∀ reason,
     fetch_answer world (exchanges st) call = Rejected reason →
     (read world this request st).1 = Threw (FetchError reason))
  ∧ (∀ response,
       fetch_answer world (exchanges st) call = Resolved response →
       json response = None →
       (read world this request st).1 = Threw SyntaxError)
  ∧ (∀ response response',
       fetch_answer world (exchanges st) call = Resolved response →
       fetch_answer world' (exchanges st) call = Resolved response' →
       json response = json response' →
       (read world this request st).1 = (read world' this request st).1).
Proof.
  cbv zeta. rewrite !read_run. cbv zeta. cbn [fst]. repeat split_and.
  - by intros reason ->.
  - intros response -> Hjson. cbn. by rewrite Hjson.
  - intros response response' -> -> Hjson. cbn. by rewrite Hjson.
Qed.

Lemma read_returns_body_of_error_status :
  (read (answering
           (Resolved {| status := 500; text := "Internal Server Error";
                        json := Some noQueries |}))
        client 0%nat oneRequest).1
  = (read (answering (ok noQueries)) client 0%nat oneRequest).1.
Proof.
  refine (proj2 (proj2
    (read_ignores_status
       (answering (Resolved {| status := 500; text := "Internal Server Error";
                               json := Some noQueries |}))
       (answering (ok noQueries)) client 0%nat oneRequest))
    _ _ eq_refl eq_refl eq_refl).
Defined.

(** *** [readCount] and the caller's request *)

(** X3. [readCount] reaches the server exactly when its argument is a
    request that holds metrics which are all objects; on [null], on a
    request without [metrics] (a [new KairosRequest()] that no metric was
    added to) and on a metrics list with a [null] entry it throws the
    runtime's [TypeError] and no exchange takes place. *)
Theorem readCount_reaches_server_iff world this (request : ref) (st : State) :
  (metricsAreObjects st request →
   oneExchange world st (readCount world this request st).2)
  ∧ (¬ metricsAreObjects st request →
     (readCount world this request st).1 = Threw TypeError
     ∧ exchanges (readCount world this request st).2 = exchanges st
     ∧ requestHeap (readCount world this request st).2 = requestHeap st).
Proof.
  split.
  - intros (r & ms & Hr & Hms & Hvalid).
    destruct (readCount_heap world this request st r ms Hr Hms Hvalid)
      as (_ & _ & Hex & _).
    eexists. exact Hex.
  - intros Hnot. rewrite readCount_run.
    destruct (requestHeap st !! request) as [r|] eqn:Hr; [|done].
    destruct (KairosRequest.metrics r) as [ms|] eqn:Hms; [|done].
    pose proof (forEach_updateMetric_frame attachCount ms st)
      as (Hreq & Hex & _ & _).
    assert (Hbad : ∃ m, m ∈ ms ∧ metricHeap st !! m = None).
    { destruct (decide (Forall (λ m, is_Some (metricHeap st !! m)) ms))
        as [Hall|Hex'].
      - exfalso. apply Hnot. exists r, ms. split; [done|]. split; [done|].
        by apply Forall_forall.
      - apply not_Forall_Exists in Hex'; [|apply _].
        apply Exists_exists in Hex' as (m & Hin & Hm).
        exists m. split; [done|]. by apply eq_None_not_Some. }
    pose proof (forEach_updateMetric_invalid attachCount ms st Hbad) as Hout.
    destruct (forEach ms _ st) as [out st1]. cbn [fst snd] in *. by subst out.
Qed.

Lemma readCount_bare_request :
  (readCount (answering (ok (counted 0 0))) client 0%nat bareRequest).1
  = Threw TypeError
  ∧ exchanges
      (readCount (answering (ok (counted 0 0))) client 0%nat bareRequest).2
    = exchanges bareRequest
  ∧ requestHeap
      (readCount (answering (ok (counted 0 0))) client 0%nat bareRequest).2
    = requestHeap bareRequest.
Proof.
  apply (readCount_reaches_server_iff (answering (ok (counted 0 0))) client
           0%nat bareRequest).
  intros (r & ms & Hr & Hms & _). by injection Hr as <-.
Defined.

(** X4. [readCount] is idempotent on the heap: a second call on the same
    request, against any server, leaves every request and metric object as
    the first call left it. *)
Theorem readCount_twice_same_heap world world' this this' (request : ref)
    (st : State) :
  metricsAreObjects st request →
  sameHeap (readCount world this request st).2
    (readCount world' this' request (readCount world this request st).2).2.
Proof.
  intros (r & ms & Hr & Hms & Hvalid).
  destruct (readCount_heap world this request st r ms Hr Hms Hvalid)
    as (Hreq1 & Hlook1 & _ & _).
  set (st1 := (readCount world this request st).2) in *.
  assert (Hvalid1 : ∀ m, m ∈ ms → is_Some (metricHeap st1 !! m)).
  { intros m Hm. rewrite Hlook1, decide_True by done.
    destruct (Hvalid m Hm) as [x ->]. by eexists. }
  assert (Hr1 : requestHeap st1 !! request = Some r) by by rewrite Hreq1.
  destruct (readCount_heap world' this' request st1 r ms Hr1 Hms Hvalid1)
    as (Hreq2 & Hlook2 & _ & _).
  split; [|done]. apply list_eq. intros m. rewrite Hlook2.
  case_decide as Hm; [|done]. rewrite Hlook1, decide_True by done.
  by destruct (metricHeap st !! m).
Qed.

Lemma readCount_twice_oneRequest :
  sameHeap (readCount (answering (ok (counted 0 0))) client 0%nat oneRequest).2
    (readCount (answering notFound) client 0%nat
       (readCount (answering (ok (counted 0 0))) client 0%nat oneRequest).2).2.
Proof.
  apply (readCount_twice_same_heap (answering (ok (counted 0 0)))
           (answering notFound) client client 0%nat oneRequest).
  exists (KairosRequest.addMetric 0%nat KairosRequest.constructor), [0%nat].
  split; [reflexivity|]. split; [reflexivity|].
  intros m ->%list_elem_of_singleton. by eexists.
Defined.

(** X5. The aggregator stays on the caller's request: after [readCount], a
    later [read] of the same request sends a body in which every metric
    carries exactly the count aggregator, whatever it carried before. *)
Theorem read_after_readCount_sends_aggregator world world' this this'
    (request : ref) (st : State) :
  metricsAreObjects st request →
  let st1 := (readCount world this request st).2 in
  ∃ call answer json entries,
    exchanges (read world' this' request st1).2
    = exchanges st1 ++ [(call, answer)]
    ∧ body (call_init call) = RequestBody (Some json)
    ∧ RequestJson.metrics json = Some entries
    ∧ ∀ entry, entry ∈ entries →
        ∃ m, entry = Some m
             ∧ KairosRequestMetric.aggregators m = Some [countAggregator].
Proof.
  intros (r & ms & Hr & Hms & Hvalid). cbv zeta.
  destruct (readCount_heap world this request st r ms Hr Hms Hvalid)
    as (Hreq1 & Hlook1 & _ & _).
  set (st1 := (readCount world this request st).2) in *.
  rewrite read_run. cbv zeta. cbn [snd recorded exchanges].
  eexists _, _. unfold queryCall at 1.
  cbn [call_init body getPostJsonRequest]. unfold snapshot.
  rewrite Hreq1, Hr. cbn [mbind option_bind]. rewrite Hms.
  cbn [fmap option_fmap option_map].
  eexists _, _. split; [reflexivity|]. split; [reflexivity|].
  split; [reflexivity|].
  intros entry (m & -> & Hm)%list_elem_of_fmap.
  rewrite Hlook1, decide_True by done.
  destruct (Hvalid m Hm) as [x ->]. by eexists.
Qed.

Lemma read_after_readCount_oneRequest :
  ∃ call answer json entries,
    exchanges
      (read (answering notFound) client 0%nat
         (readCount (answering (ok (counted 0 0))) client 0%nat
            oneRequest).2).2
    = exchanges
        (readCount (answering (ok (counted 0 0))) client 0%nat oneRequest).2
      ++ [(call, answer)]
    ∧ body (call_init call) = RequestBody (Some json)
    ∧ RequestJson.metrics json = Some entries
    ∧ ∀ entry, entry ∈ entries →
        ∃ m, entry = Some m
             ∧ KairosRequestMetric.aggregators m = Some [countAggregator].
Proof.
  apply (read_after_readCount_sends_aggregator (answering (ok (counted 0 0)))
           (answering notFound) client client 0%nat oneRequest).
  exists (KairosRequest.addMetric 0%nat KairosRequest.constructor), [0%nat].
  split; [reflexivity|]. split; [reflexivity|].
  intros m ->%list_elem_of_singleton. by eexists.
Defined.

(** *** [createSimpleRequest] *)

(** X6. [createSimpleRequest] never throws and makes no exchange.  The
    reference it returns is fresh, every object that existed before reads
    as before, and the new request serialises with [cache_time] 0,
    [start_absolute] 1, no [end_absolute] and one metric that has the given
    name (also the empty one) and the given tag filter when there is one,
    and neither [group_by] nor [aggregators]. *)
Theorem createSimpleRequest_fresh_request (metricName : string)
    (tags : option KairosMultiTags) (st : State) :
  ∃ request,
    (createSimpleRequest metricName tags st).1 = Returned request
    ∧ requestHeap st !! request = None
    ∧ exchanges (createSimpleRequest metricName tags st).2 = exchanges st
    ∧ (∀ q r, requestHeap st !! q = Some r →
         requestHeap (createSimpleRequest metricName tags st).2 !! q = Some r)
    ∧ (∀ m x, metricHeap st !! m = Some x →
         metricHeap (createSimpleRequest metricName tags st).2 !! m = Some x)
    ∧ snapshot (createSimpleRequest metricName tags st).2 request
      = Some {| RequestJson.cache_time := Some 0;
                RequestJson.start_absolute := Some 1;
                RequestJson.end_absolute := None;
                RequestJson.time_zone := None;
                RequestJson.metrics :=
                  Some [Some {| KairosRequestMetric.name := Some metricName;
                                KairosRequestMetric.tags := tags;
                                KairosRequestMetric.group_by := None;
                                KairosRequestMetric.aggregators := None |}] |}.
Proof.
  rewrite createSimpleRequest_run. exists (length (requestHeap st)).
  cbn [fst snd metricHeap requestHeap exchanges]. repeat split_and.
  - done.
  - by apply lookup_ge_None_2.
  - done.
  - intros q r Hq. by apply lookup_app_l_Some.
  - intros m x Hm. by apply lookup_app_l_Some.
  - unfold snapshot. cbn [metricHeap requestHeap].
    rewrite list_lookup_middle by done. cbn.
    by rewrite list_lookup_middle.
Qed.

(** X7. [readCount] on a request that [createSimpleRequest] has just built
    always reaches the server: exactly one exchange is made, with a POST to
    the query endpoint whose body is the simple request with the count
    aggregator on its metric, and the outcome is the count derived from the
    answer. *)
Theorem readCount_of_simple_request world this (metricName : string)
    (tags : option KairosMultiTags) (st : State) :
  let run := (request ← createSimpleRequest metricName tags;
              readCount world this request) st in
  ∃ call,
    exchanges run.2
    = exchanges st ++ [(call, fetch_answer world (exchanges st) call)]
    ∧ run.1 = derived (fetch_answer world (exchanges st) call)
    ∧ call_url call = apiUrl this +:+ "/datapoints/query"
    ∧ method (call_init call) = POST
    ∧ body (call_init call)
      = RequestBody
          (Some {| RequestJson.cache_time := Some 0;
                   RequestJson.start_absolute := Some 1;
                   RequestJson.end_absolute := None;
                   RequestJson.time_zone := None;
                   RequestJson.metrics :=
                     Some [Some {| KairosRequestMetric.name := Some metricName;
                                   KairosRequestMetric.tags := tags;
                                   KairosRequestMetric.group_by := None;
                                   KairosRequestMetric.aggregators :=
                                     Some [countAggregator] |}] |}).
Proof.
  cbv zeta. rewrite bind_run, createSimpleRequest_run.
  set (st0 := {| metricHeap := _; requestHeap := _; exchanges := _ |}).
  assert (Hr : requestHeap st0 !! length (requestHeap st)
               = Some {| KairosRequest.cache_time := Some 0;
                         KairosRequest.start_absolute := Some 1;
                         KairosRequest.end_absolute := None;
                         KairosRequest.time_zone := None;
                         KairosRequest.metrics :=
                           Some [length (metricHeap st)] |}).
  { unfold st0. cbn. by rewrite list_lookup_middle. }
  assert (Hm : metricHeap st0 !! length (metricHeap st)
               = Some {| KairosRequestMetric.name := Some metricName;
                         KairosRequestMetric.tags := tags;
                         KairosRequestMetric.group_by := None;
                         KairosRequestMetric.aggregators := None |}).
  { unfold st0. cbn. by rewrite list_lookup_middle. }
  destruct (readCount_heap world this (length (requestHeap st)) st0 _ _
              Hr eq_refl) as (Hreq & Hlook & Hex & Hout).
  { intros m ->%list_elem_of_singleton. by eexists. }
  set (st' := (readCount world this (length (requestHeap st)) st0).2) in *.
  exists (queryCall this st' (length (requestHeap st))).
  split; [exact Hex|]. split; [exact Hout|]. split; [done|]. split; [done|].
  unfold queryCall, snapshot. cbn [call_init body getPostJsonRequest].
  rewrite Hreq, Hr. cbn.
  rewrite Hlook, decide_True by (by apply list_elem_of_singleton).
  by rewrite Hm.
Qed.

(** *** More on the loop of [readCountLong] *)

Section LoopFrame.
Context (world : World) (this : ReadOnlyKairosDB) (request : ref)
  (settings : TimeIntervalCountingSettings.t).

Local Abbreviation interval :=
  (TimeIntervalCountingSettings.interval settings).
Local Abbreviation deadInterval :=
  (TimeIntervalCountingSettings.deadInterval settings).

(** The loop assigns to the window bounds of its request and to nothing
    else, and every request it sends is that request as it then reads. *)
Lemma loop_frame (fuel : nat) :
  ∀ (currentTime nonZeroTime totalCount : Z) (st : State) r,
    requestHeap st !! request = Some r →
    let run := readCountLong_loop world this fuel request settings
                 currentTime nonZeroTime totalCount st in
    metricHeap run.2 = metricHeap st
    ∧ (∃ r', requestHeap run.2 = <[request := r']> (requestHeap st)
             ∧ KairosRequest.cache_time r' = KairosRequest.cache_time r
             ∧ KairosRequest.time_zone r' = KairosRequest.time_zone r
             ∧ KairosRequest.metrics r' = KairosRequest.metrics r)
    ∧ ∃ new : list Exchange,
        exchanges run.2 = exchanges st ++ new
        ∧ ∀ ex, ex ∈ new →
            call_url ex.1 = apiUrl this +:+ "/datapoints/query"
            ∧ ∃ json,
                call_init ex.1 = getPostJsonRequest (RequestBody (Some json))
                ∧ RequestJson.cache_time json = KairosRequest.cache_time r
                ∧ RequestJson.time_zone json = KairosRequest.time_zone r
                ∧ RequestJson.metrics json
                  = (λ ms : list ref, (λ m, metricHeap st !! m) <$> ms)
                    <$> KairosRequest.metrics r.
Proof.
  assert (Hstop : ∀ (st : State) r,
            requestHeap st !! request = Some r →
            ∃ r', requestHeap st = <[request := r']> (requestHeap st)
                  ∧ KairosRequest.cache_time r' = KairosRequest.cache_time r
                  ∧ KairosRequest.time_zone r' = KairosRequest.time_zone r
                  ∧ KairosRequest.metrics r' = KairosRequest.metrics r).
  { intros st r Hr. exists r. by rewrite list_insert_id. }
  induction fuel as [|fuel IH];
    intros currentTime nonZeroTime totalCount st r Hr; cbv zeta.
  - cbn [readCountLong_loop].
    destruct ((0 <? currentTime) && _);
      (split; [done|]; split; [by apply Hstop|];
       exists []; rewrite app_nil_r; split; [done|];
       by intros ex ?%elem_of_nil).
  - destruct ((0 <? currentTime)
              && (Z.abs (currentTime - nonZeroTime) <=? deadInterval))
      eqn:Hc.
    2: { rewrite loop_stops by done. split; [done|]. split; [by apply Hstop|].
         exists []. rewrite app_nil_r. split; [done|].
         by intros ex ?%elem_of_nil. }
    rewrite (loop_step _ _ _ _ _ _ _ _ _ _ Hr Hc). cbv zeta.
    set (r1 := windowed settings currentTime r).
    set (st1 := withRequest st request r1).
    set (call := queryCall this st1 request).
    set (answer := fetch_answer world (exchanges st) call).
    assert (Hr1 : requestHeap (recorded st1 call answer) !! request = Some r1)
      by (cbn [recorded requestHeap]; by eapply lookup_withRequest).
    assert (Hcall : call_url call = apiUrl this +:+ "/datapoints/query"
              ∧ ∃ json,
                  call_init call = getPostJsonRequest (RequestBody (Some json))
                  ∧ RequestJson.cache_time json = KairosRequest.cache_time r
                  ∧ RequestJson.time_zone json = KairosRequest.time_zone r
                  ∧ RequestJson.metrics json
                    = (λ ms : list ref, (λ m, metricHeap st !! m) <$> ms)
                      <$> KairosRequest.metrics r).
    { split; [done|]. unfold call, queryCall, snapshot, st1.
      cbn [call_init].
      rewrite (lookup_withRequest _ _ _ _ Hr). cbn [mbind option_bind].
      eexists. split; [reflexivity|]. done. }
    assert (Hone : ∀ ex, ex ∈ [(call, answer)] →
              call_url ex.1 = apiUrl this +:+ "/datapoints/query"
              ∧ ∃ json,
                  call_init ex.1 = getPostJsonRequest (RequestBody (Some json))
                  ∧ RequestJson.cache_time json = KairosRequest.cache_time r
                  ∧ RequestJson.time_zone json = KairosRequest.time_zone r
                  ∧ RequestJson.metrics json
                    = (λ ms : list ref, (λ m, metricHeap st !! m) <$> ms)
                      <$> KairosRequest.metrics r).
    { by intros ex ->%list_elem_of_singleton. }
    assert (Hins : ∃ r', requestHeap (recorded st1 call answer)
                         = <[request := r']> (requestHeap st)
                     ∧ KairosRequest.cache_time r' = KairosRequest.cache_time r
                     ∧ KairosRequest.time_zone r' = KairosRequest.time_zone r
                     ∧ KairosRequest.metrics r' = KairosRequest.metrics r)
      by by exists r1.
    destruct (readOutcome answer ≫= countOf) as [c|e|].
    + specialize (IH (currentTime - interval)
                     (if 0 <? c then currentTime else nonZeroTime)
                     (totalCount + c) _ _ Hr1).
      cbv zeta in IH.
      destruct IH as (Hmh & (r' & Hrh & H1 & H2 & H3) & new & Hex & Hnew).
      split; [exact Hmh|]. split.
      * exists r'. rewrite Hrh. cbn [recorded requestHeap st1 withRequest].
        by rewrite list_insert_insert_eq.
      * exists ((call, answer) :: new). split.
        -- rewrite Hex. cbn [recorded exchanges]. by rewrite <- app_assoc.
        -- intros ex [->|Hin]%elem_of_cons; [exact Hcall|].
           exact (Hnew ex Hin).
    + split; [done|]. split; [exact Hins|]. by exists [(call, answer)].
    + split; [done|]. split; [exact Hins|]. by exists [(call, answer)].
Qed.

(** A failing window ends the scan: every exchange but the last one of a
    throwing run has delivered a count, and the error thrown is the one of
    the last exchange. *)
Lemma loop_outcomes (fuel : nat) :
  ∀ (currentTime nonZeroTime totalCount : Z) (st : State) r,
    requestHeap st !! request = Some r →
    let run := readCountLong_loop world this fuel request settings
                 currentTime nonZeroTime totalCount st in
    ∃ new : list Exchange,
      exchanges run.2 = exchanges st ++ new
      ∧ match run.1 with
        | Threw e =>
            ∃ init last,
              new = init ++ [last]
              ∧ Forall (λ ex : Exchange, ∃ c, derived ex.2 = Returned c) init
              ∧ derived last.2 = Threw e
        | _ => Forall (λ ex : Exchange, ∃ c, derived ex.2 = Returned c) new
        end.
Proof.
  induction fuel as [|fuel IH];
    intros currentTime nonZeroTime totalCount st r Hr; cbv zeta.
  - exists []. rewrite app_nil_r. cbn [readCountLong_loop].
    destruct ((0 <? currentTime) && _); (split; [done|]); cbn;
      apply Forall_nil_2.
  - destruct ((0 <? currentTime)
              && (Z.abs (currentTime - nonZeroTime) <=? deadInterval))
      eqn:Hc.
    2: { exists []. rewrite app_nil_r, loop_stops by done.
         split; [done|]. apply Forall_nil_2. }
    rewrite (loop_step _ _ _ _ _ _ _ _ _ _ Hr Hc). cbv zeta.
    set (st1 := withRequest st request (windowed settings currentTime r)).
    set (call := queryCall this st1 request).
    set (answer := fetch_answer world (exchanges st) call).
    destruct (readOutcome answer ≫= countOf) as [c|e|] eqn:Hout.
    + edestruct (IH (currentTime - interval)
                    (if 0 <? c then currentTime else nonZeroTime)
                    (totalCount + c) (recorded st1 call answer))
        as (new & Hex & Hnew).
      { cbn [recorded requestHeap]. by eapply lookup_withRequest. }
      exists ((call, answer) :: new). split.
      { rewrite Hex. cbn [recorded exchanges]. by rewrite <- app_assoc. }
      assert (Hhead : ∃ c', derived (call, answer).2 = Returned c')
        by by exists c.
      destruct (readCountLong_loop _ _ _ _ _ _ _ _ _).1 as [total|e|].
      * by constructor.
      * destruct Hnew as (init & last & -> & Hinit & Hlast).
        exists ((call, answer) :: init), last.
        split; [done|]. split; [by constructor | done].
      * by constructor.
    + exists [(call, answer)]. split; [done|]. cbn [fst].
      exists [], (call, answer). by repeat split.
    + by destruct (countOf_not_OutOfFuel answer).
Qed.

(** Against a server without data the loop returns its incoming total after
    exactly the windows that end above 0 and within the dead interval of
    the marker. *)
Lemma loop_no_data (fuel : nat) :
  0 < interval →
  reports world noData →
  ∀ (currentTime nonZeroTime totalCount : Z) (st : State) r,
    requestHeap st !! request = Some r →
    currentTime ≤ nonZeroTime →
    currentTime ≤ Z.of_nat fuel * interval →
    let run := readCountLong_loop world this fuel request settings
                 currentTime nonZeroTime totalCount st in
    run.1 = Returned totalCount
    ∧ ∃ new : list Exchange,
        exchanges run.2 = exchanges st ++ new
        ∧ ∀ k : nat,
            (k < length new)%nat
            ↔ 0 < currentTime - Z.of_nat k * interval
              ∧ Z.of_nat k * interval + (nonZeroTime - currentTime)
                ≤ deadInterval.
Proof.
  intros Hint Hrep.
  assert (HS : ∀ k : nat,
            Z.of_nat (S k) * interval = Z.of_nat k * interval + interval).
  { intros k. rewrite Nat2Z.inj_succ. ring. }
  induction fuel as [|fuel IH];
    intros currentTime nonZeroTime totalCount st r Hr Hnz Hfuel; cbv zeta;
    destruct ((0 <? currentTime)
              && (Z.abs (currentTime - nonZeroTime) <=? deadInterval))
      eqn:Hc.
  - apply andb_prop in Hc as [Hpos%Z.ltb_lt _]. lia.
  - rewrite loop_stops by done. split; [done|].
    exists []. rewrite app_nil_r. split; [done|].
    apply andb_false_iff in Hc. intros k. cbn [length]. split; [lia|].
    intros [H1 H2]. exfalso.
    assert (0 ≤ Z.of_nat k * interval) by nia.
    destruct Hc as [Hc%Z.ltb_ge|Hc%Z.leb_gt]; lia.
  - rewrite (loop_step _ _ _ _ _ _ _ _ _ _ Hr Hc). cbv zeta.
    destruct (window_of_call this st request settings currentTime r Hr)
      as [_ Hend].
    rewrite (Hrep _ _ _ Hend). unfold noData. cbn [Z.ltb Z.compare].
    rewrite Z.add_0_r.
    apply andb_prop in Hc as [Hpos%Z.ltb_lt Hdead%Z.leb_le].
    edestruct (IH (currentTime - interval) nonZeroTime totalCount)
      as (Hout & new & Hex & Hlen);
      [ | | | split; [exact Hout|] ].
    { cbn [recorded requestHeap]. by eapply lookup_withRequest. }
    { lia. }
    { lia. }
    eexists (_ :: new). split.
    { rewrite Hex. cbn [recorded exchanges]. by rewrite <- app_assoc. }
    intros [|k]; cbn [length].
    + split; [lia|]. intros _. lia.
    + rewrite HS. specialize (Hlen k). split.
      * intros Hk. assert (k < length new)%nat as Hk' by lia.
        apply Hlen in Hk'. lia.
      * intros [H1 H2]. apply ->Nat.succ_lt_mono. apply Hlen. lia.
  - rewrite loop_stops by done. split; [done|].
    exists []. rewrite app_nil_r. split; [done|].
    apply andb_false_iff in Hc. intros k. cbn [length]. split; [lia|].
    intros [H1 H2]. exfalso.
    assert (0 ≤ Z.of_nat k * interval) by nia.
    destruct Hc as [Hc%Z.ltb_ge|Hc%Z.leb_gt]; lia.
Qed.
End LoopFrame.

(** *** More on [readCountLong] *)

(** X8. [readCountLong] works on objects of its own: with [interval > 1] it
    allocates exactly one metric object, which carries the name, the tag
    filter and the count aggregator, and exactly one request object, which
    refers to that metric; every object that existed before the call is
    left as it was, whatever the server answers. *)
Theorem readCountLong_allocates_only world this (fuel : nat)
    (metricName : string) (tags : option KairosMultiTags) settings
    (st : State) :
  1 < TimeIntervalCountingSettings.interval settings →
  let st' := (readCountLong world this fuel metricName tags settings st).2 in
  metricHeap st'
  = metricHeap st
    ++ [{| KairosRequestMetric.name := Some metricName;
           KairosRequestMetric.tags := tags;
           KairosRequestMetric.group_by := None;
           KairosRequestMetric.aggregators := Some [countAggregator] |}]
  ∧ ∃ r', requestHeap st' = requestHeap st ++ [r']
          ∧ KairosRequest.cache_time r' = Some 0
          ∧ KairosRequest.time_zone r' = None
          ∧ KairosRequest.metrics r' = Some [length (metricHeap st)].
Proof.
  intros Hint. cbv zeta. rewrite readCountLong_run by done.
  pose proof (prepared_request st metricName tags) as Hr.
  destruct (loop_frame world this (length (requestHeap st)) settings fuel
              (getTime world) (getTime world) 0
              (prepared st metricName tags) _ Hr)
    as (Hmh & (r' & Hrh & H1 & H2 & H3) & _).
  split; [exact Hmh|]. exists r'. split; [|done].
  rewrite Hrh. unfold prepared. cbn [requestHeap].
  rewrite <- (Nat.add_0_r (length (requestHeap st))) at 1.
  by rewrite insert_app_r.
Qed.

Lemma readCountLong_allocates_only_oneRequest :
  let st' := (readCountLong (windowServer twoRecentWindows 100) client 20
                "m" None
                {| TimeIntervalCountingSettings.interval := 10;
                   TimeIntervalCountingSettings.deadInterval := 25 |}
                oneRequest).2 in
  metricHeap st'
  = metricHeap oneRequest
    ++ [{| KairosRequestMetric.name := Some "m";
           KairosRequestMetric.tags := None;
           KairosRequestMetric.group_by := None;
           KairosRequestMetric.aggregators := Some [countAggregator] |}]
  ∧ ∃ r', requestHeap st' = requestHeap oneRequest ++ [r']
          ∧ KairosRequest.cache_time r' = Some 0
          ∧ KairosRequest.time_zone r' = None
          ∧ KairosRequest.metrics r' = Some [length (metricHeap oneRequest)].
Proof.
  apply (readCountLong_allocates_only (windowServer twoRecentWindows 100)
           client 20 "m" None
           {| TimeIntervalCountingSettings.interval := 10;
              TimeIntervalCountingSettings.deadInterval := 25 |} oneRequest).
  cbn. lia.
Defined.

(** X9. Every request that [readCountLong] sends is a POST of JSON to the
    query endpoint whose body has [cache_time] 0, no [time_zone], and the
    one metric with the given name and tag filter and with the count
    aggregator over 999999 years, although the window bounds of the body
    already restrict the query. *)
Theorem readCountLong_request_bodies world this (fuel : nat)
    (metricName : string) (tags : option KairosMultiTags) settings
    (st : State) :
  ∃ new : list Exchange,
    exchanges (readCountLong world this fuel metricName tags settings st).2
    = exchanges st ++ new
    ∧ ∀ ex, ex ∈ new →
        call_url ex.1 = apiUrl this +:+ "/datapoints/query"
        ∧ method (call_init ex.1) = POST
        ∧ headers (call_init ex.1) = [("Content-Type", "application/json")]
        ∧ ∃ json,
            body (call_init ex.1) = RequestBody (Some json)
            ∧ RequestJson.cache_time json = Some 0
            ∧ RequestJson.time_zone json = None
            ∧ RequestJson.metrics json
              = Some [Some {| KairosRequestMetric.name := Some metricName;
                              KairosRequestMetric.tags := tags;
                              KairosRequestMetric.group_by := None;
                              KairosRequestMetric.aggregators :=
                                Some [countAggregator] |}].
Proof.
  destruct (Z.le_gt_cases (TimeIntervalCountingSettings.interval settings) 1)
    as [Hsmall|Hint].
  { exists []. rewrite readCountLong_guard_run, app_nil_r by done.
    split; [done|]. by intros ex ?%elem_of_nil. }
  rewrite readCountLong_run by done.
  pose proof (prepared_request st metricName tags) as Hr.
  destruct (loop_frame world this (length (requestHeap st)) settings fuel
              (getTime world) (getTime world) 0
              (prepared st metricName tags) _ Hr)
    as (_ & _ & new & Hex & Hnew).
  exists new. split; [exact Hex|]. intros ex Hin.
  destruct (Hnew ex Hin) as (Hurl & json & Hinit & H1 & H2 & H3).
  split; [exact Hurl|]. rewrite Hinit. split; [done|]. split; [done|].
  exists json. split; [done|]. split; [done|]. split; [done|].
  rewrite H3. unfold prepared. cbn. by rewrite list_lookup_middle.
Qed.

(** X10. The windows of [readCountLong] tile the time line backwards: each
    request's window starts one millisecond after the end of the next
    request's window and ends [interval] after it, so no millisecond is
    asked for twice and none in between is left out. *)
Theorem readCountLong_windows_tile world this (fuel : nat)
    (metricName : string) (tags : option KairosMultiTags) settings
    (st : State) :
  ∃ new : list Exchange,
    exchanges (readCountLong world this fuel metricName tags settings st).2
    = exchanges st ++ new
    ∧ ∀ (k : nat) ex ex',
        new !! k = Some ex → new !! S k = Some ex' →
        ∃ e', endOf ex'.1 = Some e'
              ∧ startOf ex.1 = Some (e' + 1)
              ∧ endOf ex.1
                = Some (e' + TimeIntervalCountingSettings.interval settings).
Proof.
  destruct (Z.le_gt_cases (TimeIntervalCountingSettings.interval settings) 1)
    as [Hsmall|Hint].
  { exists []. rewrite readCountLong_guard_run, app_nil_r by done.
    split; [done|]. by intros k ex ex' ?. }
  rewrite readCountLong_run by done.
  pose proof (prepared_request st metricName tags) as Hr.
  destruct (loop_trace world this (length (requestHeap st)) settings fuel
              ltac:(lia) (getTime world) (getTime world) 0
              (prepared st metricName tags) _ Hr ltac:(lia))
    as (new & Hex & Hshape & _ & _).
  exists new. split; [exact Hex|]. intros k ex ex' Hk Hk'.
  destruct (Hshape k ex Hk) as (_ & Hend & Hstart).
  destruct (Hshape (S k) ex' Hk') as (Hpos' & Hend' & _).
  rewrite Nat2Z.inj_succ in *.
  eexists. split; [exact Hend'|]. rewrite Hstart, Hend.
  split; f_equal; lia.
Qed.

(** X11. The number of requests is bounded by the clock alone: with
    [interval > 1] the request number [k] (from 0) is made only if
    [k·interval < now], so there are at most [now / interval], rounded up,
    requests; when the clock is not above 0 there is none and the result
    is 0. *)
Theorem readCountLong_request_bound world this (fuel : nat)
    (metricName : string) (tags : option KairosMultiTags) settings
    (st : State) :
  1 < TimeIntervalCountingSettings.interval settings →
  ∃ new : list Exchange,
    exchanges (readCountLong world this fuel metricName tags settings st).2
    = exchanges st ++ new
    ∧ (∀ k : nat, (k < length new)%nat →
         Z.of_nat k * TimeIntervalCountingSettings.interval settings
         < getTime world)
    ∧ (getTime world ≤ 0 →
       new = []
       ∧ (readCountLong world this fuel metricName tags settings st).1
         = Returned 0).
Proof.
  intros Hint. rewrite readCountLong_run by done.
  pose proof (prepared_request st metricName tags) as Hr.
  destruct (loop_trace world this (length (requestHeap st)) settings fuel
              ltac:(lia) (getTime world) (getTime world) 0
              (prepared st metricName tags) _ Hr ltac:(lia))
    as (new & Hex & Hshape & _ & _).
  exists new. split; [exact Hex|].
  assert (Hbound : ∀ k : nat, (k < length new)%nat →
            Z.of_nat k * TimeIntervalCountingSettings.interval settings
            < getTime world).
  { intros k [ex Hk]%lookup_lt_is_Some.
    destruct (Hshape k ex Hk) as (Hpos & _). lia. }
  split; [exact Hbound|]. intros Hnow. split.
  - destruct new as [|ex new]; [done|].
    specialize (Hbound 0%nat ltac:(cbn; lia)). lia.
  - rewrite loop_stops; [done|]. apply andb_false_intro1, Z.ltb_ge. lia.
Qed.

Lemma readCountLong_request_bound_three :
  ∃ new : list Exchange,
    exchanges
      (readCountLong (windowServer twoRecentWindows 25) client 20 "m" None
         {| TimeIntervalCountingSettings.interval := 10;
            TimeIntervalCountingSettings.deadInterval := 1000 |}
         emptyState).2
    = exchanges emptyState ++ new
    ∧ (∀ k : nat, (k < length new)%nat → Z.of_nat k * 10 < 25)
    ∧ (25 ≤ 0 →
       new = []
       ∧ (readCountLong (windowServer twoRecentWindows 25) client 20 "m" None
            {| TimeIntervalCountingSettings.interval := 10;
               TimeIntervalCountingSettings.deadInterval := 1000 |}
            emptyState).1
         = Returned 0).
Proof.
  apply (readCountLong_request_bound (windowServer twoRecentWindows 25)
           client 20 "m" None
           {| TimeIntervalCountingSettings.interval := 10;
              TimeIntervalCountingSettings.deadInterval := 1000 |}
           emptyState).
  cbn. lia.
Defined.

(** X12. A dead interval below the window length stops the scan after its
    first window: with [interval > 1] and [deadInterval < interval] at most
    one request is made and a returned value is the count of that one
    window; with [deadInterval < 0] no request is made and the result is
    0. *)
Theorem readCountLong_short_dead_interval world this (fuel : nat)
    (metricName : string) (tags : option KairosMultiTags) settings
    (st : State) :
  1 < TimeIntervalCountingSettings.interval settings →
  TimeIntervalCountingSettings.deadInterval settings
  < TimeIntervalCountingSettings.interval settings →
  ∃ new : list Exchange,
    exchanges (readCountLong world this fuel metricName tags settings st).2
    = exchanges st ++ new
    ∧ (length new ≤ 1)%nat
    ∧ (∀ total,
         (readCountLong world this fuel metricName tags settings st).1
         = Returned total →
         total = match new with
                 | [] => 0
                 | ex :: _ => windowCount ex.2
                 end)
    ∧ (TimeIntervalCountingSettings.deadInterval settings < 0 →
       new = []
       ∧ (readCountLong world this fuel metricName tags settings st).1
         = Returned 0).
Proof.
  intros Hint Hdead. rewrite readCountLong_run by done.
  pose proof (prepared_request st metricName tags) as Hr.
  destruct (loop_trace world this (length (requestHeap st)) settings fuel
              ltac:(lia) (getTime world) (getTime world) 0
              (prepared st metricName tags) _ Hr ltac:(lia))
    as (new & Hex & _ & Hstretch & Hsum).
  exists new. split; [exact Hex|].
  assert (Hlen : (length new ≤ 1)%nat).
  { destruct new as [|ex0 [|ex1 new]]; cbn; [lia | lia |]. exfalso.
    destruct (Hstretch 1%nat ex1 eq_refl) as [Hl|(j & exj & Hj & _ & _ & Hd)].
    - lia.
    - assert (j = 0%nat) as -> by lia. lia. }
  split; [exact Hlen|]. split.
  - intros total Htotal. rewrite (Hsum total Htotal).
    destruct new as [|ex0 [|ex1 new]]; cbn in *; [done | lia | lia].
  - intros Hneg. split.
    + destruct new as [|ex0 new]; [done|]. exfalso.
      destruct (Hstretch 0%nat ex0 eq_refl) as [Hl|(j & exj & Hj & _)]; lia.
    + rewrite loop_stops; [done|]. apply andb_false_intro2, Z.leb_gt.
      rewrite Z.sub_diag. cbn. lia.
Qed.

Lemma readCountLong_short_dead_interval_one_request :
  ∃ new : list Exchange,
    exchanges
      (readCountLong (windowServer twoRecentWindows 100) client 20 "m" None
         {| TimeIntervalCountingSettings.interval := 10;
            TimeIntervalCountingSettings.deadInterval := 9 |} emptyState).2
    = exchanges emptyState ++ new
    ∧ (length new ≤ 1)%nat
    ∧ (∀ total,
         (readCountLong (windowServer twoRecentWindows 100) client 20 "m" None
            {| TimeIntervalCountingSettings.interval := 10;
               TimeIntervalCountingSettings.deadInterval := 9 |}
            emptyState).1
         = Returned total →
         total = match new with
                 | [] => 0
                 | ex :: _ => windowCount ex.2
                 end)
    ∧ (9 < 0 →
       new = []
       ∧ (readCountLong (windowServer twoRecentWindows 100) client 20 "m" None
            {| TimeIntervalCountingSettings.interval := 10;
               TimeIntervalCountingSettings.deadInterval := 9 |}
            emptyState).1
         = Returned 0).
Proof.
  apply (readCountLong_short_dead_interval
           (windowServer twoRecentWindows 100) client 20 "m" None
           {| TimeIntervalCountingSettings.interval := 10;
              TimeIntervalCountingSettings.deadInterval := 9 |} emptyState);
    cbn; lia.
Defined.

(** X13. One failing window aborts the whole scan: when [readCountLong]
    (with [interval > 1]) throws, every exchange before the last one had
    delivered a count, the last one is the one that failed, its error is
    the one thrown, no further request was made and the counts gathered so
    far are lost; when it returns, every exchange has delivered a count. *)
Theorem readCountLong_aborts_on_failure world this (fuel : nat)
    (metricName : string) (tags : option KairosMultiTags) settings
    (st : State) :
  1 < TimeIntervalCountingSettings.interval settings →
  ∃ new : list Exchange,
    exchanges (readCountLong world this fuel metricName tags settings st).2
    = exchanges st ++ new
    ∧ (∀ e,
         (readCountLong world this fuel metricName tags settings st).1
         = Threw e →
         ∃ init last,
           new = init ++ [last]
           ∧ Forall (λ ex : Exchange, ∃ c, derived ex.2 = Returned c) init
           ∧ derived last.2 = Threw e)
    ∧ (∀ total,
         (readCountLong world this fuel metricName tags settings st).1
         = Returned total →
         Forall (λ ex : Exchange, ∃ c, derived ex.2 = Returned c) new).
Proof.
  intros Hint. rewrite readCountLong_run by done.
  pose proof (prepared_request st metricName tags) as Hr.
  destruct (loop_outcomes world this (length (requestHeap st)) settings fuel
              (getTime world) (getTime world) 0
              (prepared st metricName tags) _ Hr)
    as (new & Hex & Hout).
  exists new. split; [exact Hex|]. split.
  - intros e He. by rewrite He in Hout.
  - intros total Htotal. by rewrite Htotal in Hout.
Qed.

Lemma readCountLong_unreachable_server :
  ∃ new : list Exchange,
    exchanges
      (readCountLong unreachable client 20 "m" None
         {| TimeIntervalCountingSettings.interval := 10;
            TimeIntervalCountingSettings.deadInterval := 25 |} emptyState).2
    = exchanges emptyState ++ new
    ∧ (∀ e,
         (readCountLong unreachable client 20 "m" None
            {| TimeIntervalCountingSettings.interval := 10;
               TimeIntervalCountingSettings.deadInterval := 25 |}
            emptyState).1
         = Threw e →
         ∃ init last,
           new = init ++ [last]
           ∧ Forall (λ ex : Exchange, ∃ c, derived ex.2 = Returned c) init
           ∧ derived last.2 = Threw e)
    ∧ (∀ total,
         (readCountLong unreachable client 20 "m" None
            {| TimeIntervalCountingSettings.interval := 10;
               TimeIntervalCountingSettings.deadInterval := 25 |}
            emptyState).1
         = Returned total →
         Forall (λ ex : Exchange, ∃ c, derived ex.2 = Returned c) new).
Proof.
  apply (readCountLong_aborts_on_failure unreachable client 20 "m" None
           {| TimeIntervalCountingSettings.interval := 10;
              TimeIntervalCountingSettings.deadInterval := 25 |} emptyState).
  cbn. lia.
Defined.

(** The run against the unreachable server makes one request and throws. *)
Lemma readCountLong_unreachable_server_run :
  (readCountLong unreachable client 20 "m" None
     {| TimeIntervalCountingSettings.interval := 10;
        TimeIntervalCountingSettings.deadInterval := 25 |} emptyState).1
  = Threw (FetchError "ECONNREFUSED")
  ∧ length
      (exchanges
         (readCountLong unreachable client 20 "m" None
            {| TimeIntervalCountingSettings.interval := 10;
               TimeIntervalCountingSettings.deadInterval := 25 |}
            emptyState).2)
    = 1%nat.
Proof. split; reflexivity. Qed.

(** X14. Against a server without data, [readCountLong] (with
    [interval > 1] and enough fuel) returns 0 after exactly the requests
    number [k] with [k·interval < now] and [k·interval ≤ deadInterval]:
    the empty stretch that ends the scan is measured from the start of the
    scan, in steps of [interval]. *)
Theorem readCountLong_no_data world this (fuel : nat)
    (metricName : string) (tags : option KairosMultiTags) settings
    (st : State) :
  1 < TimeIntervalCountingSettings.interval settings →
  reports world noData →
  getTime world
  ≤ Z.of_nat fuel * TimeIntervalCountingSettings.interval settings →
  (readCountLong world this fuel metricName tags settings st).1 = Returned 0
  ∧ ∃ new : list Exchange,
      exchanges (readCountLong world this fuel metricName tags settings st).2
      = exchanges st ++ new
      ∧ ∀ k : nat,
          (k < length new)%nat
          ↔ Z.of_nat k * TimeIntervalCountingSettings.interval settings
            < getTime world
            ∧ Z.of_nat k * TimeIntervalCountingSettings.interval settings
              ≤ TimeIntervalCountingSettings.deadInterval settings.
Proof.
  intros Hint Hrep Hfuel. rewrite readCountLong_run by done.
  pose proof (prepared_request st metricName tags) as Hr.
  destruct (loop_no_data world this (length (requestHeap st)) settings fuel
              ltac:(lia) Hrep (getTime world) (getTime world) 0
              (prepared st metricName tags) _ Hr ltac:(lia) Hfuel)
    as (Hout & new & Hex & Hlen).
  split; [exact Hout|]. exists new. split; [exact Hex|].
  intros k. rewrite Hlen. split; intros [H1 H2]; split; lia.
Qed.

Lemma readCountLong_no_data_three_requests :
  (readCountLong (windowServer noData 100) client 10 "m" None
     {| TimeIntervalCountingSettings.interval := 10;
        TimeIntervalCountingSettings.deadInterval := 25 |} emptyState).1
  = Returned 0
  ∧ ∃ new : list Exchange,
      exchanges
        (readCountLong (windowServer noData 100) client 10 "m" None
           {| TimeIntervalCountingSettings.interval := 10;
              TimeIntervalCountingSettings.deadInterval := 25 |}
           emptyState).2
      = exchanges emptyState ++ new
      ∧ ∀ k : nat,
          (k < length new)%nat
          ↔ Z.of_nat k * 10 < 100 ∧ Z.of_nat k * 10 ≤ 25.
Proof.
  apply (readCountLong_no_data (windowServer noData 100) client 10 "m" None
           {| TimeIntervalCountingSettings.interval := 10;
              TimeIntervalCountingSettings.deadInterval := 25 |} emptyState).
  - cbn. lia.
  - apply windowServer_reports.
  - cbn. lia.
Defined.

(** *** The endpoints of the read-only client *)

Lemma string_app_assoc (a b c : string) : (a +:+ b) +:+ c = a +:+ (b +:+ c).
Proof.
  induction a as [|x a IH]; [done|].
  change (String x ((a +:+ b) +:+ c) = String x (a +:+ (b +:+ c))).
  by rewrite IH.
Qed.

Lemma queryEndpoint_not_mutating this (call : Call) :
  queryEndpoint this call → ¬ mutatingEndpoint this call.
Proof.
  intros Hq Hm.
  assert (Hinj : ∀ a b : string, apiUrl this +:+ a = apiUrl this +:+ b → a = b)
    by (intros a b; apply (inj (String.app (apiUrl this)))).
  destruct Hq as [[_ [Hu|Hu]]|(_ & _ & part & Hu)];
    destruct Hm as [Hm|[Hm|[name Hm]]];
    rewrite Hu in Hm; try rewrite string_app_assoc in Hm;
    apply Hinj in Hm; cbv [String.append] in Hm; discriminate.
Qed.

Lemma fetch_then_pure_exchange {A} world (url : string) (init : RequestInit)
    (k : Response → M A) (st : State) :
  (∀ response st1, (k response st1).2 = st1) →
  exchanges ((response ← fetch world url init; k response) st).2
  = exchanges st
    ++ [({| call_url := url; call_init := init |},
         fetch_answer world (exchanges st)
           {| call_url := url; call_init := init |})].
Proof.
  intros Hk. rewrite bind_run, fetch_run. cbv zeta.
  destruct (fetch_answer world (exchanges st) _) as [response|reason];
    [|done].
  specialize (Hk response
    {| metricHeap := metricHeap st; requestHeap := requestHeap st;
       exchanges :=
         exchanges st
         ++ [({| call_url := url; call_init := init |}, Resolved response)] |}).
  destruct (k response _) as [[a|e|] st2]; cbn [snd] in *; by subst st2.
Qed.

Lemma onlyQueries_one this (st st' : State) (call : Call) (answer : Settled) :
  exchanges st' = exchanges st ++ [(call, answer)] →
  queryEndpoint this call →
  onlyQueries this st st'.
Proof.
  intros Hex Hq. exists [(call, answer)]. split; [done|].
  intros ex ->%list_elem_of_singleton. split; [done|].
  by apply queryEndpoint_not_mutating.
Qed.

Lemma onlyQueries_none this (st st' : State) :
  exchanges st' = exchanges st → onlyQueries this st st'.
Proof.
  intros Hex. exists []. rewrite app_nil_r. split; [done|].
  by intros ex ?%elem_of_nil.
Qed.

(** X15. The read-only client keeps its promise that nothing is erased or
    changed: whatever the arguments and the server's answers,
    [getMetricNames], [getMetricTags], [read], [readCount] and
    [readCountLong] call only the listing endpoint (GET, no body) and the
    two query endpoints (POST), none of which is an endpoint of [write],
    [delete] or [deleteMetric]; those three each make one call to their
    own endpoint, except that [deleteMetric] makes none when
    [encodeURIComponent] refuses the metric name. *)
Theorem read_only_client_never_mutates world this (st : State) :
  (∀ jsonNames prefix,
     onlyQueries this st (getMetricNames world this jsonNames prefix st).2)
  ∧ (∀ metricName,
       onlyQueries this st (getMetricTags world this metricName st).2)
  ∧ (∀ request, onlyQueries this st (read world this request st).2)
  ∧ (∀ request, onlyQueries this st (readCount world this request st).2)
  ∧ (∀ fuel metricName tags settings,
       onlyQueries this st
         (readCountLong world this fuel metricName tags settings st).2)
  ∧ (∀ metricName,
       match encodeURIComponent world metricName with
       | Some _ =>
           oneMutation this st (deleteMetric world this metricName st).2
       | None =>
           exchanges (deleteMetric world this metricName st).2 = exchanges st
       end)
  ∧ (∀ items, oneMutation this st (write world this items st).2)
  ∧ (∀ request, oneMutation this st (delete world this request st).2).
Proof.
  repeat split_and.
  - intros jsonNames prefix. rewrite getMetricNames_run.
    destruct (match prefix with Some _ => _ | None => _ end) as [part|];
      [|by apply onlyQueries_none].
    eapply onlyQueries_one.
    + apply fetch_then_pure_exchange. intros response st1.
      rewrite bind_run. by destruct (jsonNames response).
    + right. split; [done|]. split; [done|]. by eexists.
  - intros metricName. eapply onlyQueries_one.
    + apply fetch_then_pure_exchange. intros response st1.
      rewrite bind_run. unfold jsonOf. by destruct (json response).
    + left. split; [done|]. by right.
  - intros request. rewrite read_run. eapply onlyQueries_one; [done|].
    left. split; [done|]. by left.
  - intros request. rewrite readCount_run.
    destruct (requestHeap st !! request) as [r|];
      [|by apply onlyQueries_none].
    destruct (KairosRequest.metrics r) as [ms|];
      [|by apply onlyQueries_none].
    pose proof (forEach_updateMetric_frame attachCount ms st)
      as (_ & Hex & _ & _).
    destruct (forEach ms _ st) as [[[]|e|] st1]; cbn [snd] in *;
      [|by apply onlyQueries_none..].
    eapply onlyQueries_one.
    + cbn [recorded exchanges]. by rewrite Hex.
    + left. split; [done|]. by left.
  - intros fuel metricName tags settings.
    destruct (Z.le_gt_cases (TimeIntervalCountingSettings.interval settings) 1)
      as [Hsmall|Hint].
    { rewrite readCountLong_guard_run by done. by apply onlyQueries_none. }
    rewrite readCountLong_run by done.
    pose proof (prepared_request st metricName tags) as Hr.
    destruct (loop_frame world this (length (requestHeap st)) settings fuel
                (getTime world) (getTime world) 0
                (prepared st metricName tags) _ Hr)
      as (_ & _ & new & Hex & Hnew).
    exists new. split; [exact Hex|]. intros ex Hin.
    destruct (Hnew ex Hin) as (Hurl & json & Hinit & _).
    assert (Hq : queryEndpoint this ex.1).
    { left. rewrite Hinit. split; [done|]. by left. }
    split; [exact Hq|]. by apply queryEndpoint_not_mutating.
  - intros metricName. rewrite deleteMetric_run.
    destruct (encodeURIComponent world metricName) as [encoded|]; [|done].
    eexists _, _. split.
    + apply fetch_then_pure_exchange. intros response st1.
      by destruct (negb _).
    + right. right. by eexists.
  - intros items. eexists _, _. split.
    + apply fetch_then_pure_exchange. intros response st1.
      by destruct (negb _).
    + by left.
  - intros request. unfold delete, stringify. rewrite bind_run.
    eexists _, _. split.
    + apply fetch_then_pure_exchange. intros response st1.
      by destruct (negb _).
    + right. by left.
Qed.

(** *** The builders *)

Lemma setProperty_insert {V} (key : string) (value : V)
    (obj : gmap string V) :
  key ≠ "__proto__" ∨ is_Some (obj !! key) →
  setProperty key value obj = <[key := value]> obj.
Proof.
  intros Hkey. unfold setProperty. case_decide as Hc; [|done].
  destruct Hc as [-> Hnone]. destruct Hkey as [?|[? Hsome]]; [done|].
  congruence.
Qed.

Lemma setProperty_skip {V} (key : string) (value : V)
    (obj : gmap string V) :
  key = "__proto__" → obj !! key = None → setProperty key value obj = obj.
Proof. intros. unfold setProperty. by rewrite decide_True. Qed.

Lemma setProperty_cases {V} (key : string) (obj : gmap string V) :
  (key ≠ "__proto__" ∨ is_Some (obj !! key))
  ∨ (key = "__proto__" ∧ obj !! key = None).
Proof.
  destruct (decide (key = "__proto__")); [|by left; left].
  destruct (obj !! key) eqn:Hl; [left; right; by eexists | by right].
Qed.

Lemma setProperty_overwrite {V} (key : string) (value value' : V)
    (obj : gmap string V) :
  setProperty key value' (setProperty key value obj)
  = setProperty key value' obj.
Proof.
  destruct (setProperty_cases key obj) as [Hins|[Hkey Hnone]].
  - rewrite (setProperty_insert key value obj Hins).
    rewrite (setProperty_insert key value' obj Hins).
    rewrite setProperty_insert, insert_insert_eq; [done|].
    right. rewrite lookup_insert_eq. by eexists.
  - by rewrite (setProperty_skip key value obj Hkey Hnone).
Qed.

Lemma setProperty_commute {V} (key key' : string) (value value' : V)
    (obj : gmap string V) :
  key' ≠ key →
  setProperty key' value' (setProperty key value obj)
  = setProperty key value (setProperty key' value' obj).
Proof.
  intros Hne.
  destruct (setProperty_cases key obj) as [Hins|[Hkey Hnone]];
    destruct (setProperty_cases key' obj) as [Hins'|[Hkey' Hnone']].
  - rewrite (setProperty_insert key value obj Hins).
    rewrite (setProperty_insert key' value' obj Hins').
    rewrite !setProperty_insert; [by apply insert_insert_ne | |].
    + destruct Hins as [?|?]; [by left | right].
      by rewrite lookup_insert_ne.
    + destruct Hins' as [?|?]; [by left | right].
      by rewrite lookup_insert_ne.
  - rewrite (setProperty_skip key' value' obj Hkey' Hnone').
    rewrite (setProperty_insert key value obj Hins).
    rewrite setProperty_skip; [done | done |].
    by rewrite lookup_insert_ne.
  - rewrite (setProperty_skip key value obj Hkey Hnone).
    rewrite (setProperty_insert key' value' obj Hins').
    rewrite setProperty_skip; [done | done |].
    by rewrite lookup_insert_ne.
  - congruence.
Qed.

(** X16. [KairosRequestMetric.putTag] is an assignment to a property of the
    tag filter: it creates the filter when there is none; for a key other
    than [__proto__] (or one that the filter holds already) the key then
    reads back the given values and every other key reads as before; the
    key [__proto__], on a filter without an own property of that name,
    stores nothing, the own keys of the filter are then what they were; the
    other fields are untouched, a second [putTag] on the same key replaces
    the first, and calls on different keys may be made in either order. *)
Theorem KairosRequestMetric_putTag_lookup (key : string)
    (values : list string) (this : KairosRequestMetric.t) :
  (key ≠ "__proto__"
   ∨ is_Some (default ∅ (KairosRequestMetric.tags this) !! key) →
   ∃ t, KairosRequestMetric.tags (KairosRequestMetric.putTag key values this)
        = Some t
        ∧ t !! key = Some values
        ∧ ∀ k, k ≠ key →
            t !! k = default ∅ (KairosRequestMetric.tags this) !! k)
  ∧ (key = "__proto__" →
     default ∅ (KairosRequestMetric.tags this) !! key = None →
     KairosRequestMetric.tags (KairosRequestMetric.putTag key values this)
     = Some (default ∅ (KairosRequestMetric.tags this)))
  ∧ KairosRequestMetric.name (KairosRequestMetric.putTag key values this)
    = KairosRequestMetric.name this
  ∧ KairosRequestMetric.group_by (KairosRequestMetric.putTag key values this)
    = KairosRequestMetric.group_by this
  ∧ KairosRequestMetric.aggregators
      (KairosRequestMetric.putTag key values this)
    = KairosRequestMetric.aggregators this
  ∧ (∀ values',
       KairosRequestMetric.putTag key values'
         (KairosRequestMetric.putTag key values this)
       = KairosRequestMetric.putTag key values' this)
  ∧ (∀ key' values', key' ≠ key →
       KairosRequestMetric.putTag key' values'
         (KairosRequestMetric.putTag key values this)
       = KairosRequestMetric.putTag key values
           (KairosRequestMetric.putTag key' values' this)).
Proof.
  repeat split_and; try done.
  - intros Hkey. unfold KairosRequestMetric.putTag. cbn.
    rewrite setProperty_insert by done. eexists. split; [done|]. split.
    + apply lookup_insert_eq.
    + intros k Hk. by apply lookup_insert_ne.
  - intros Hkey Hnone. unfold KairosRequestMetric.putTag. cbn.
    by rewrite setProperty_skip.
  - intros values'. unfold KairosRequestMetric.putTag. cbn.
    by rewrite setProperty_overwrite.
  - intros key' values' Hne. unfold KairosRequestMetric.putTag. cbn.
    by rewrite setProperty_commute.
Qed.

Lemma KairosRequestMetric_putTag_host :
  ∃ t, KairosRequestMetric.tags
         (KairosRequestMetric.putTag "host" ["a"; "b"]
            (KairosRequestMetric.constructor (Some "m")))
       = Some t
       ∧ t !! "host" = Some ["a"; "b"]
       ∧ ∀ k, k ≠ "host" →
           t !! k
           = default ∅ (KairosRequestMetric.tags
                           (KairosRequestMetric.constructor (Some "m"))) !! k.
Proof.
  apply (KairosRequestMetric_putTag_lookup "host" ["a"; "b"]
           (KairosRequestMetric.constructor (Some "m"))).
  left. discriminate.
Defined.

(** X17. The [KairosIncoming] builder: [putTag] creates the tag mapping
    when there is none; for a key other than [__proto__] (or one that the
    mapping holds already) the key reads back its value and the other keys
    are kept, and the key [__proto__], on a mapping without an own property
    of that name, stores nothing; [setValues] replaces the datapoints;
    neither touches the name or the other's field, so the two may be
    chained in either order, and the last [putTag] on a key and the last
    [setValues] win. *)
Theorem KairosIncoming_builder (key value : string)
    (items : list KairosItem) (this : KairosIncoming.t) :
  (key ≠ "__proto__" ∨ is_Some (default ∅ (KairosIncoming.tags this) !! key) →
   ∃ t, KairosIncoming.tags (KairosIncomingMethods.putTag key value this)
        = Some t
        ∧ t !! key = Some value
        ∧ ∀ k, k ≠ key → t !! k = default ∅ (KairosIncoming.tags this) !! k)
  ∧ (key = "__proto__" →
     default ∅ (KairosIncoming.tags this) !! key = None →
     KairosIncoming.tags (KairosIncomingMethods.putTag key value this)
     = Some (default ∅ (KairosIncoming.tags this)))
  ∧ KairosIncomingMethods.setValues items
      (KairosIncomingMethods.putTag key value this)
    = KairosIncomingMethods.putTag key value
        (KairosIncomingMethods.setValues items this)
  ∧ KairosIncoming.datapoints
      (KairosIncomingMethods.putTag key value
         (KairosIncomingMethods.setValues items this))
    = Some items
  ∧ KairosIncoming.name
      (KairosIncomingMethods.putTag key value
         (KairosIncomingMethods.setValues items this))
    = KairosIncoming.name this
  ∧ (∀ value',
       KairosIncomingMethods.putTag key value'
         (KairosIncomingMethods.putTag key value this)
       = KairosIncomingMethods.putTag key value' this)
  ∧ (∀ items',
       KairosIncomingMethods.setValues items'
         (KairosIncomingMethods.setValues items this)
       = KairosIncomingMethods.setValues items' this).
Proof.
  repeat split_and; try done.
  - intros Hkey. unfold KairosIncomingMethods.putTag. cbn.
    rewrite setProperty_insert by done. eexists. split; [done|]. split.
    + apply lookup_insert_eq.
    + intros k Hk. by apply lookup_insert_ne.
  - intros Hkey Hnone. unfold KairosIncomingMethods.putTag. cbn.
    by rewrite setProperty_skip.
  - intros value'. unfold KairosIncomingMethods.putTag. cbn.
    by rewrite setProperty_overwrite.
Qed.

Lemma KairosIncoming_builder_host :
  ∃ t, KairosIncoming.tags
         (KairosIncomingMethods.putTag "host" "a"
            (KairosIncomingMethods.constructor (Some "m")))
       = Some t
       ∧ t !! "host" = Some "a"
       ∧ ∀ k, k ≠ "host" →
           t !! k
           = default ∅ (KairosIncoming.tags
                           (KairosIncomingMethods.constructor (Some "m"))) !! k.
Proof.
  apply (KairosIncoming_builder "host" "a" []
           (KairosIncomingMethods.constructor (Some "m"))).
  left. discriminate.
Defined.

(** X18. [KairosRequest.addMetric] appends: adding the metrics of a list
    one after the other leaves the request with the metrics it had (none
    when [metrics] was undefined) followed by the new ones in the order of
    the calls, and changes no other field. *)
Theorem KairosRequest_addMetric_appends (ms : list ref)
    (this : KairosRequest.t) :
  let built := foldl (λ r m, KairosRequest.addMetric m r) this ms in
  KairosRequest.metrics built
  = match ms with
    | [] => KairosRequest.metrics this
    | _ => Some (default [] (KairosRequest.metrics this) ++ ms)
    end
  ∧ KairosRequest.cache_time built = KairosRequest.cache_time this
  ∧ KairosRequest.start_absolute built = KairosRequest.start_absolute this
  ∧ KairosRequest.end_absolute built = KairosRequest.end_absolute this
  ∧ KairosRequest.time_zone built = KairosRequest.time_zone this.
Proof.
  cbv zeta. revert this. induction ms as [|m ms IH]; intros this; [done|].
  cbn [foldl]. destruct (IH (KairosRequest.addMetric m this))
    as (Hm & H1 & H2 & H3 & H4).
  rewrite Hm, H1, H2, H3, H4. repeat split_and; try done.
  destruct ms as [|m' ms]; cbn; [done|]. by rewrite <- app_assoc.
Qed.

(** *** The equality helper, again *)

(** X19. Although its loop runs over the indices of [left] only,
    [checkKairosItemsEqual] is an equivalence: the order of its two
    arguments does not matter, and two sequences that both equal a third
    equal each other. *)
Theorem checkKairosItemsEqual_equivalence (a b c : list KairosItem) :
  checkKairosItemsEqual a b = checkKairosItemsEqual b a
  ∧ (checkKairosItemsEqual a b = Some true →
     checkKairosItemsEqual b c = Some true →
     checkKairosItemsEqual a c = Some true).
Proof.
  rewrite !checkKairosItemsEqual_eq. split.
  - f_equal. apply bool_decide_ext. split; intros [-> ?]; done.
  - intros [= [-> Ha]%bool_decide_eq_true] [= [-> Hb]%bool_decide_eq_true].
    f_equal. by apply bool_decide_eq_true.
Qed.

(** *** How good the heuristic is *)

Lemma sumWindows_nonneg (counts : Z → Z) (interval : Z) (fuel : nat) :
  (∀ t, 0 ≤ counts t) →
  ∀ currentTime, 0 ≤ sumWindows fuel counts interval currentTime.
Proof.
  intros Hpos. induction fuel as [|fuel IH]; intros currentTime;
    cbn [sumWindows]; [done|].
  destruct (0 <? currentTime); [|done].
  specialize (Hpos currentTime). specialize (IH (currentTime - interval)).
  lia.
Qed.

(** With a dead interval that reaches back to the epoch the scan is
    exhaustive. *)
Lemma scan_exhaustive (counts : Z → Z) settings (fuel : nat) :
  0 < TimeIntervalCountingSettings.interval settings →
  ∀ currentTime nonZeroTime totalCount : Z,
    currentTime ≤ nonZeroTime →
    nonZeroTime ≤ TimeIntervalCountingSettings.deadInterval settings →
    currentTime
    ≤ Z.of_nat fuel * TimeIntervalCountingSettings.interval settings →
    scan fuel counts settings currentTime nonZeroTime totalCount
    = Some (totalCount
            + sumWindows fuel counts
                (TimeIntervalCountingSettings.interval settings) currentTime).
Proof.
  intros Hint. induction fuel as [|fuel IH];
    intros currentTime nonZeroTime totalCount Hnz Hdead Hfuel;
    cbn [scan sumWindows].
  - destruct (Z.ltb_spec 0 currentTime); [lia|]. cbn. by rewrite Z.add_0_r.
  - destruct (Z.ltb_spec 0 currentTime) as [Hpos|Hneg]; cbn [andb].
    + replace (Z.abs (currentTime - nonZeroTime)
               <=? TimeIntervalCountingSettings.deadInterval settings)
        with true by (symmetry; apply Z.leb_le; lia).
      rewrite IH; [f_equal; lia | destruct (0 <? _); lia
                  | destruct (0 <? _); lia | lia].
    + by rewrite Z.add_0_r.
Qed.

(** The scan never counts a window twice and never invents points: with
    counts that are not negative its result lies between the incoming
    total and the exhaustive sum. *)
Lemma scan_bounds (counts : Z → Z) settings (fuel : nat) :
  0 < TimeIntervalCountingSettings.interval settings →
  (∀ t, 0 ≤ counts t) →
  ∀ currentTime nonZeroTime totalCount : Z,
    currentTime
    ≤ Z.of_nat fuel * TimeIntervalCountingSettings.interval settings →
    ∃ total,
      scan fuel counts settings currentTime nonZeroTime totalCount
      = Some total
      ∧ totalCount ≤ total
      ∧ total
        ≤ totalCount
          + sumWindows fuel counts
              (TimeIntervalCountingSettings.interval settings) currentTime.
Proof.
  intros Hint Hpos. induction fuel as [|fuel IH];
    intros currentTime nonZeroTime totalCount Hfuel; cbn [scan sumWindows].
  - destruct (Z.ltb_spec 0 currentTime); [lia|]. cbn [andb].
    exists totalCount. split; [done|]. lia.
  - destruct (Z.ltb_spec 0 currentTime) as [Hct|Hct]; cbn [andb].
    + pose proof (sumWindows_nonneg counts
                    (TimeIntervalCountingSettings.interval settings)
                    fuel Hpos
                    (currentTime
                     - TimeIntervalCountingSettings.interval settings)).
      specialize (Hpos currentTime).
      destruct (Z.abs (currentTime - nonZeroTime) <=? _).
      * edestruct (IH (currentTime
                       - TimeIntervalCountingSettings.interval settings))
          as (total & -> & H1 & H2); [lia|].
        exists total. split; [done|]. lia.
      * exists totalCount. split; [done|]. lia.
    + exists totalCount. split; [done|]. lia.
Qed.

(** A longer dead interval never lowers the result. *)
Lemma scan_monotone (counts : Z → Z) settings (dead1 dead2 : Z) (fuel : nat) :
  0 < TimeIntervalCountingSettings.interval settings →
  (∀ t, 0 ≤ counts t) →
  dead1 ≤ dead2 →
  ∀ currentTime nonZeroTime totalCount : Z,
    currentTime
    ≤ Z.of_nat fuel * TimeIntervalCountingSettings.interval settings →
    ∃ total1 total2,
      scan fuel counts (withDeadInterval dead1 settings)
        currentTime nonZeroTime totalCount = Some total1
      ∧ scan fuel counts (withDeadInterval dead2 settings)
          currentTime nonZeroTime totalCount = Some total2
      ∧ total1 ≤ total2.
Proof.
  intros Hint Hpos Hdead. induction fuel as [|fuel IH];
    intros currentTime nonZeroTime totalCount Hfuel;
    cbn [scan withDeadInterval TimeIntervalCountingSettings.interval
         TimeIntervalCountingSettings.deadInterval].
  - destruct (Z.ltb_spec 0 currentTime); [lia|]. cbn [andb].
    exists totalCount, totalCount. by repeat split.
  - destruct (Z.ltb_spec 0 currentTime) as [Hct|Hct]; cbn [andb].
    2: { exists totalCount, totalCount. by repeat split. }
    destruct (Z.leb_spec (Z.abs (currentTime - nonZeroTime)) dead1)
      as [H1|H1].
    + replace (Z.abs (currentTime - nonZeroTime) <=? dead2) with true
        by (symmetry; apply Z.leb_le; lia).
      apply IH. lia.
    + destruct (Z.leb_spec (Z.abs (currentTime - nonZeroTime)) dead2)
        as [H2|H2].
      * destruct (scan_bounds counts (withDeadInterval dead2 settings) fuel
                    Hint Hpos
                    (currentTime
                     - TimeIntervalCountingSettings.interval settings)
                    (if 0 <? counts currentTime then currentTime
                     else nonZeroTime)
                    (totalCount + counts currentTime))
          as (total2 & Hs & Hlo & _); [cbn; lia|].
        cbn [withDeadInterval TimeIntervalCountingSettings.interval] in Hs.
        exists totalCount, total2. split; [done|]. split; [exact Hs|].
        specialize (Hpos currentTime). lia.
      * exists totalCount, totalCount. by repeat split.
Qed.

(** X20. Against a server that reports [counts], with [interval > 1] and
    enough fuel: when the dead interval is at least the clock,
    [readCountLong] is exhaustive and returns the sum of the counts of all
    the windows back to the epoch; and whenever no count is negative it
    returns a total between 0 and that sum, so the heuristic can miss
    points behind an empty stretch but never counts any twice. *)
Theorem readCountLong_against_exhaustive_sum world this (fuel : nat)
    (metricName : string) (tags : option KairosMultiTags) settings
    (st : State) (counts : Z → Z) :
  1 < TimeIntervalCountingSettings.interval settings →
  reports world counts →
  getTime world
  ≤ Z.of_nat fuel * TimeIntervalCountingSettings.interval settings →
  (getTime world ≤ TimeIntervalCountingSettings.deadInterval settings →
   (readCountLong world this fuel metricName tags settings st).1
   = Returned (sumWindows fuel counts
                 (TimeIntervalCountingSettings.interval settings)
                 (getTime world)))
  ∧ ((∀ t, 0 ≤ counts t) →
     ∃ total,
       (readCountLong world this fuel metricName tags settings st).1
       = Returned total
       ∧ 0 ≤ total
       ∧ total ≤ sumWindows fuel counts
                   (TimeIntervalCountingSettings.interval settings)
                   (getTime world)).
Proof.
  intros Hint Hrep Hfuel. rewrite readCountLong_run by done.
  pose proof (prepared_request st metricName tags) as Hr.
  rewrite (loop_refines_scan world this _ settings counts fuel Hrep _ _ _ _ _
             Hr).
  split.
  - intros Hdead. by rewrite scan_exhaustive by (done || lia).
  - intros Hpos.
    destruct (scan_bounds counts settings fuel ltac:(lia) Hpos
                (getTime world) (getTime world) 0 Hfuel)
      as (total & -> & H1 & H2).
    exists total. split; [done|]. lia.
Qed.

Lemma readCountLong_exhaustive_two_recent_windows :
  (100 ≤ 1000 →
   (readCountLong (windowServer twoRecentWindows 100) client 20 "m" None
      {| TimeIntervalCountingSettings.interval := 10;
         TimeIntervalCountingSettings.deadInterval := 1000 |} emptyState).1
   = Returned (sumWindows 20 twoRecentWindows 10 100))
  ∧ ((∀ t, 0 ≤ twoRecentWindows t) →
     ∃ total,
       (readCountLong (windowServer twoRecentWindows 100) client 20 "m" None
          {| TimeIntervalCountingSettings.interval := 10;
             TimeIntervalCountingSettings.deadInterval := 1000 |}
          emptyState).1
       = Returned total
       ∧ 0 ≤ total
       ∧ total ≤ sumWindows 20 twoRecentWindows 10 100).
Proof.
  apply (readCountLong_against_exhaustive_sum
           (windowServer twoRecentWindows 100) client 20 "m" None
           {| TimeIntervalCountingSettings.interval := 10;
              TimeIntervalCountingSettings.deadInterval := 1000 |}
           emptyState twoRecentWindows).
  - cbn. lia.
  - apply windowServer_reports.
  - cbn. lia.
Defined.

(** X21. A longer dead interval never lowers the result: against a server
    that reports counts none of which is negative, with the same
    [interval > 1] and enough fuel, [readCountLong] with the dead interval
    [dead1] returns at most what it returns with [dead2 ≥ dead1]. *)
Theorem readCountLong_monotone_in_deadInterval world this (fuel : nat)
    (metricName : string) (tags : option KairosMultiTags) settings
    (st : State) (counts : Z → Z) (dead1 dead2 : Z) :
  1 < TimeIntervalCountingSettings.interval settings →
  reports world counts →
  (∀ t, 0 ≤ counts t) →
  dead1 ≤ dead2 →
  getTime world
  ≤ Z.of_nat fuel * TimeIntervalCountingSettings.interval settings →
  ∃ total1 total2,
    (readCountLong world this fuel metricName tags
       (withDeadInterval dead1 settings) st).1 = Returned total1
    ∧ (readCountLong world this fuel metricName tags
         (withDeadInterval dead2 settings) st).1 = Returned total2
    ∧ total1 ≤ total2.
Proof.
  intros Hint Hrep Hpos Hdead Hfuel. rewrite !readCountLong_run by done.
  pose proof (prepared_request st metricName tags) as Hr.
  rewrite !(loop_refines_scan world this _ _ counts fuel Hrep _ _ _ _ _ Hr).
  destruct (scan_monotone counts settings dead1 dead2 fuel ltac:(lia) Hpos
              Hdead (getTime world) (getTime world) 0 Hfuel)
    as (total1 & total2 & -> & -> & Hle).
  by exists total1, total2.
Qed.

Lemma readCountLong_monotone_two_recent_windows :
  ∃ total1 total2,
    (readCountLong (windowServer twoRecentWindows 100) client 20 "m" None
       (withDeadInterval 0
          {| TimeIntervalCountingSettings.interval := 10;
             TimeIntervalCountingSettings.deadInterval := 25 |})
       emptyState).1 = Returned total1
    ∧ (readCountLong (windowServer twoRecentWindows 100) client 20 "m" None
         (withDeadInterval 25
            {| TimeIntervalCountingSettings.interval := 10;
               TimeIntervalCountingSettings.deadInterval := 25 |})
         emptyState).1 = Returned total2
    ∧ total1 ≤ total2.
Proof.
  apply (readCountLong_monotone_in_deadInterval
           (windowServer twoRecentWindows 100) client 20 "m" None
           {| TimeIntervalCountingSettings.interval := 10;
              TimeIntervalCountingSettings.deadInterval := 25 |}
           emptyState twoRecentWindows 0 25).
  - cbn. lia.
  - apply windowServer_reports.
  - intros t. unfold twoRecentWindows.
    destruct (t =? 100); [lia|]. destruct (t =? 90); lia.
  - lia.
  - cbn. lia.
Defined.
